(** * CSTBox web services application server (pycstbox.webservices.wsapp)

    A shallow embedding of [wsapp.py]: services discovery
    ([AppServer._discover_services]), route table assembly
    ([AppServer._setup_handlers]), the request handler contract
    ([WSHandler]), the server life cycle ([AppServer.start]) and the request
    logger ([AppServer._log_request]), together with the properties of the
    specification that concern them.

    Python objects mutated in place live in an explicit store; logging and
    exceptions are threaded through a state-and-exception monad whose state
    survives a raise, as the side effects of a Python call do. *)

From Stdlib Require Import ZArith String Ascii Bool Lia.
From stdpp Require Import base option list strings gmap sorting.

Open Scope string_scope.
Open Scope list_scope.
Open Scope Z_scope.

(** ** Exceptions *)

(** The exception classes the module raises, catches or tests for.
    [UserError] stands for any other subclass of [Exception]; [BaseError]
    for a class deriving from [BaseException] only (outside the reach of
    an [except Exception] clause). *)
Inductive exn_class : Type :=
  | ImportError
  | AttributeError
  | NoSectionError
  | NoOptionError
  | ParsingError
  | RuntimeError
  | PlainException
  | HTTPError
  | KeyboardInterrupt
  | UserError (name : string)
  | BaseError (name : string).

(** An exception instance: its class, [str(e)], the [reason] attribute when
    the instance has one, and for a [tornado.web.HTTPError] its
    [status_code] and [log_message]. *)
Record exn : Type := mkExn {
  exn_class_of : exn_class;
  exn_str : string;
  exn_reason : option string;
  exn_status_code : Z;
  exn_log_message : option string
}.

Definition class_name (c : exn_class) : string :=
  match c with
  | ImportError => "ImportError"
  | AttributeError => "AttributeError"
  | NoSectionError => "NoSectionError"
  | NoOptionError => "NoOptionError"
  | ParsingError => "ParsingError"
  | RuntimeError => "RuntimeError"
  | PlainException => "Exception"
  | HTTPError => "HTTPError"
  | KeyboardInterrupt => "KeyboardInterrupt"
  | UserError n => n
  | BaseError n => n
  end.

(** [isinstance(e, Exception)] *)
Definition is_Exception (e : exn) : bool :=
  match exn_class_of e with
  | KeyboardInterrupt | BaseError _ => false
  | _ => true
  end.

(** [isinstance(e, (ImportError, AttributeError))] *)
Definition is_Import_or_Attribute (e : exn) : bool :=
  match exn_class_of e with
  | ImportError | AttributeError => true
  | _ => false
  end.

(** [isinstance(e, tornado.web.HTTPError)] *)
Definition is_HTTPError (e : exn) : bool :=
  match exn_class_of e with
  | HTTPError => true
  | _ => false
  end.

(** An exception built from a class and a message, without [reason]. *)
Definition simple_exn (c : exn_class) (msg : string) : exn :=
  mkExn c msg None 500 None.

(** ** Logging *)

Inductive level : Type := DEBUG | INFO | WARNING | ERROR | CRITICAL.

(** Arguments handed to the logging calls. [AMillis t] is the float
    [1000.0 * t] of a duration [t], kept symbolic. *)
Inductive log_arg : Type :=
  | AStr (s : string)
  | AInt (z : Z)
  | AMillis (t : Z).

(** One logging call: level, format string, arguments, and whether the
    traceback of the exception being handled is attached
    ([logger.exception]). *)
Record log_record : Type := mkLog {
  lr_level : level;
  lr_fmt : string;
  lr_args : list log_arg;
  lr_exc_info : bool
}.

Definition logger := list log_record.

(** ** State and exception monad *)

Inductive outcome (A : Type) : Type :=
  | Return (a : A)
  | Raise (e : exn).
Arguments Return {A} a.
Arguments Raise {A} e.

Definition M (S A : Type) : Type := S -> S * outcome A.

Definition ret {S A} (a : A) : M S A := fun s => (s, Return a).

Definition bind {S A B} (c : M S A) (k : A -> M S B) : M S B :=
  fun s => match c s with
           | (s', Return a) => k a s'
           | (s', Raise e) => (s', Raise e)
           end.

Definition raise {S A} (e : exn) : M S A := fun s => (s, Raise e).

(** [try: c  except <sel> as e: h e]: the handler runs on the state the
    body left behind; an exception the clause does not select goes on. *)
Definition try_except {S A} (c : M S A) (sel : exn -> bool) (h : exn -> M S A)
  : M S A :=
  fun s => match c s with
           | (s', Return a) => (s', Return a)
           | (s', Raise e) => if sel e then h e s' else (s', Raise e)
           end.

Definition get_state {S} : M S S := fun s => (s, Return s).
Definition put_state {S} (s' : S) : M S unit := fun _ => (s', Return tt).
Definition modify {S} (f : S -> S) : M S unit := fun s => (f s, Return tt).

Declare Scope py_scope.
Delimit Scope py_scope with py.
Notation "x <- c ;; k" := (bind c (fun x => k))
  (at level 100, c at next level, right associativity) : py_scope.
Notation "c ;;; k" := (bind c (fun _ => k))
  (at level 100, right associativity) : py_scope.
Open Scope py_scope.

(** ** Strings *)

(** [s.lstrip(c)] for a single character [c]: every leading [c] goes. *)
Fixpoint lstrip (c : ascii) (s : string) : string :=
  match s with
  | EmptyString => EmptyString
  | String a s' => if Ascii.eqb a c then lstrip c s' else s
  end.

(** [s.rstrip(c)] for a single character [c]: every trailing [c] goes. *)
Fixpoint rstrip (c : ascii) (s : string) : string :=
  match s with
  | EmptyString => EmptyString
  | String a s' =>
      match rstrip c s' with
      | EmptyString => if Ascii.eqb a c then EmptyString else String a EmptyString
      | r => String a r
      end
  end.

Definition starts_with (c : ascii) (s : string) : bool :=
  match s with
  | String a _ => Ascii.eqb a c
  | EmptyString => false
  end.

Fixpoint ends_with (c : ascii) (s : string) : bool :=
  match s with
  | EmptyString => false
  | String a EmptyString => Ascii.eqb a c
  | String _ s' => ends_with c s'
  end.

(** [c * n] *)
Fixpoint replicate_char (n : nat) (c : ascii) : string :=
  match n with
  | O => EmptyString
  | S n' => String c (replicate_char n' c)
  end.

Definition SEP : ascii := "/"%char.

(** ** Route namespacing ([_discover_services], lines 304 and 309) *)

(** [url_base = "%s/%s/" % (self._app_url_base.rstrip('/'), service_name)] *)
Definition url_base (app_url_base service_name : string) : string :=
  rstrip SEP app_url_base +:+ "/" +:+ service_name +:+ "/".

(** [effective_url = url_base + rule[0].lstrip('/')] *)
Definition effective_url (app_url_base service_name pattern : string) : string :=
  url_base app_url_base service_name +:+ lstrip SEP pattern.

(** The namespacing as the specification words it: at most one leading
    separator of the local pattern is removed. *)
Definition strip_one (c : ascii) (s : string) : string :=
  match s with
  | String a s' => if Ascii.eqb a c then s' else s
  | EmptyString => EmptyString
  end.

Definition spec_effective_url (app_url_base service_name pattern : string) : string :=
  url_base app_url_base service_name +:+ strip_one SEP pattern.

(** ** Request handlers ([WSHandler]) *)

(** Values of the JSON objects the handlers write. *)
Inductive jvalue : Type :=
  | JStr (s : string)
  | JNull.

(** A [dict] handed to [write]. *)
Definition json := gmap string jvalue.

(** The state of one [tornado.web.RequestHandler] instance, as far as the
    module relies on it: status code, chunks written and not yet flushed,
    chunks sent on the connection, and [self._logger] with the calls made
    on it. *)
Record handler : Type := mkHandler {
  h_status : Z;
  h_write_buffer : list json;
  h_sent : list json;
  h_headers_written : bool;
  h_finished : bool;
  h_logger : option logger
}.

(** A handler as the framework creates it for a request. *)
Definition new_handler (lg : option logger) : handler :=
  mkHandler 200 [] [] false false lg.

(** [self.set_status(code)] *)
Definition set_status (code : Z) : M handler unit :=
  modify (fun h => mkHandler code (h_write_buffer h) (h_sent h)
                     (h_headers_written h) (h_finished h) (h_logger h)).

(** [self.write(chunk)] *)
Definition write (chunk : json) : M handler unit :=
  fun h =>
    if h_finished h then
      (h, Raise (simple_exn RuntimeError "Cannot write() after finish()"))
    else
      (mkHandler (h_status h) (h_write_buffer h ++ [chunk]) (h_sent h)
         (h_headers_written h) (h_finished h) (h_logger h), Return tt).

(** [self.flush()] *)
Definition flush : M handler unit :=
  fun h =>
    if h_finished h then
      (h, Raise (simple_exn RuntimeError "Cannot flush() after finish()"))
    else
      (mkHandler (h_status h) [] (h_sent h ++ h_write_buffer h)
         true (h_finished h) (h_logger h), Return tt).

(** [self.finish()] *)
Definition finish : M handler unit :=
  fun h =>
    if h_finished h then
      (h, Raise (simple_exn RuntimeError "finish() called twice"))
    else
      (mkHandler (h_status h) [] (h_sent h ++ h_write_buffer h)
         true true (h_logger h), Return tt).

(** [self.clear()] *)
Definition clear : M handler unit :=
  modify (fun h => mkHandler 200 [] (h_sent h)
                     (h_headers_written h) (h_finished h) (h_logger h)).

(** A call on [self._logger], made only [if self._logger]. *)
Definition h_log (r : log_record) : M handler unit :=
  modify (fun h =>
    match h_logger h with
    | Some lg => mkHandler (h_status h) (h_write_buffer h) (h_sent h)
                   (h_headers_written h) (h_finished h) (Some (lg ++ [r]))
    | None => h
    end).

(** [reply_not_implemented] *)
Definition reply_not_implemented : M handler unit :=
  set_status 501 ;;;
  write {[ "message" := JStr "not yet implemented" ]}.

(** The dictionary [exception_reply] writes. *)
Definition error_envelope (e : exn) : json :=
  {[ "errtype" := JStr (class_name (exn_class_of e));
     "message" := JStr (exn_str e);
     "additInfos" := JStr (match exn_reason e with Some r => r | None => "" end) ]}.

(** [exception_reply(e)], called while [e] is being handled:
    [sys.exc_info()] is [e] itself. *)
Definition exception_reply (e : exn) : M handler unit :=
  h_log (mkLog ERROR
           ("unexpected error '" +:+ class_name (exn_class_of e) +:+
            "' with message '" +:+ exn_str e +:+ "'") [] true) ;;;
  h_log (mkLog ERROR "--- end of traceback ---" [] false) ;;;
  set_status 500 ;;;
  write (error_envelope e).

(** [error_reply(message, status_code=500, addit_infos=None)] *)
Definition error_reply (message : string) (status_code : Z)
    (addit_infos : option string) : M handler unit :=
  set_status status_code ;;;
  let infos := match addit_infos with Some i => i | None => "" end in
  (if String.eqb infos "" then
     h_log (mkLog ERROR "request error: %s" [AStr message] false)
   else
     h_log (mkLog ERROR "request error: %s (addit infos: %s)"
              [AStr message; AStr infos] false)) ;;;
  write {[ "message" := JStr message; "additInfos" := JStr infos ]}.

(** The dictionary [write_error] writes for an [HTTPError]. *)
Definition message_body (e : exn) : json :=
  {[ "message" := match exn_log_message e with Some m => JStr m | None => JNull end ]}.

(** [write_error(status_code, exc_info)] with [exc_info[1] = e] *)
Definition write_error (status_code : Z) (e : exn) : M handler unit :=
  if is_HTTPError e then
    write (message_body e) ;;;
    set_status status_code
  else
    exception_reply e.

(** [_process_request(method, *args, **kwargs)], [method] already applied
    to its arguments. *)
Definition _process_request (method : M handler unit) : M handler unit :=
  fun h =>
    match method h with
    | (h', Raise e) =>
        if is_Exception e then
          (h_log (mkLog ERROR (exn_str e) [] true) ;;;
           if is_HTTPError e then raise e else exception_reply e) h'
        else (h', Raise e)
    | (h', Return _) =>
        try_except flush
          (fun e => match exn_class_of e with RuntimeError => true | _ => false end)
          (fun _ => ret tt) h'
    end.

Inductive verb : Type := GET | POST | PUT | DELETE.

(** A [do_*] method applied to a handler: the URL captures are its
    arguments. *)
Definition method := list string -> M handler unit.

(** A subclass of [WSHandler]: the [do_*] methods it overrides and its
    [disable_request_logging] attribute when it defines one. *)
Record handler_class : Type := mkClass {
  cls_name : string;
  cls_do_get : option method;
  cls_do_post : option method;
  cls_do_put : option method;
  cls_do_delete : option method;
  disable_request_logging : option bool
}.

(** [WSHandler.do_get], [do_post], [do_put] and [do_delete] *)
Definition WSHandler_do (v : verb) : method := fun _ => reply_not_implemented.

(** Method resolution: the override of the class, else the one inherited
    from [WSHandler]. *)
Definition resolve (c : handler_class) (v : verb) : method :=
  default (WSHandler_do v)
    match v with
    | GET => cls_do_get c
    | POST => cls_do_post c
    | PUT => cls_do_put c
    | DELETE => cls_do_delete c
    end.

(** [get], [post], [put] and [delete] of [WSHandler] *)
Definition handle (c : handler_class) (v : verb) (args : list string) : M handler unit :=
  _process_request (resolve c v args).

(** [AppServer.InvalidRequest] *)
Definition InvalidRequest_do_get : method := fun _ => set_status 404.
Definition InvalidRequest_do_post : method := fun _ => InvalidRequest_do_get [].
Definition InvalidRequest : handler_class :=
  mkClass "InvalidRequest"
    (Some InvalidRequest_do_get) (Some InvalidRequest_do_post) None None None.

(** *** The framework around a handler call

    What [tornado.web.RequestHandler] does with the outcome of the verb
    method: finish the response, or turn an uncaught exception into an
    error response through [send_error] and the overridden
    [write_error]. *)

Definition finish_if_open : M handler unit :=
  fun h => if h_finished h then (h, Return tt) else finish h.

Definition send_error (status_code : Z) (e : exn) : M handler unit :=
  fun h =>
    if h_headers_written h then finish_if_open h
    else
      (clear ;;;
       set_status status_code ;;;
       try_except (write_error status_code e) is_Exception (fun _ => ret tt) ;;;
       finish_if_open) h.

Definition handle_request_exception (e : exn) : M handler unit :=
  fun h =>
    if h_finished h then (h, Return tt)
    else send_error (if is_HTTPError e then exn_status_code e else 500) e h.

(** The framework calling a verb method that is already wrapped by
    [_process_request]. *)
Definition run_method (m : M handler unit) : M handler unit :=
  try_except (_process_request m ;;; finish_if_open) is_Exception
    handle_request_exception.

Definition execute (c : handler_class) (v : verb) (args : list string) : M handler unit :=
  run_method (resolve c v args).

(** ** Routes and service descriptors *)

Definition loc := positive.

(** What follows the pattern in a route tuple: a handler class, referred
    to by name, or the dictionary of its [initialize] parameters. *)
Inductive rule_item : Type :=
  | IClass (name : string)
  | IDict (params : gmap string string).

(** A route tuple [(pattern, handler[, initparams])]; [rule_tail] is
    [rule[1:]]. *)
Record rule : Type := mkRule {
  rule_pattern : string;
  rule_tail : list rule_item
}.

(** [namedtuple('ServiceDescriptor', 'name label handlers')] *)
Record ServiceDescriptor : Type := mkServiceDescriptor {
  sd_name : string;
  sd_label : string;
  sd_handlers : list rule
}.

(** ** Manifest files ([ConfigParser.SafeConfigParser]) *)

Definition MANIFEST_FILE_NAME : string := "MANIFEST".
Definition MANIFEST_MAIN_SECTION : string := "service".
Definition MANIFEST_SETTINGS_SECTION : string := "settings".
Definition SERVICES_PACKAGE_NAME : string := "pycstbox.webservices.services".

(** A parsed configuration file: the options of its [[DEFAULT]] section
    and its other sections. Option names are those the parser stores
    (lower case); values are taken after interpolation. *)
Record config_file : Type := mkConfig {
  cf_default : gmap string string;
  cf_sections : gmap string (gmap string string)
}.

(** [_services_cfg_defaults = {'mapping': 'handlers'}] *)
Definition _services_cfg_defaults : gmap string string :=
  {[ "mapping" := "handlers" ]}.

(** The parser's defaults once the file is read: the file's [[DEFAULT]]
    options over the ones given to the constructor. *)
Definition parser_defaults (mf : config_file) : gmap string string :=
  cf_default mf ∪ _services_cfg_defaults.

Definition no_section_error (section : string) : exn :=
  simple_exn NoSectionError ("No section: '" +:+ section +:+ "'").

Definition no_option_error (option section : string) : exn :=
  simple_exn NoOptionError
    ("No option '" +:+ option +:+ "' in section: '" +:+ section +:+ "'").

(** [mf.get(section, option)], for option values that hold no [%]: the
    interpolation of values (and the error it raises on a malformed
    [%]) is not part of this model. *)
Definition mf_get (mf : config_file) (section option : string) : outcome string :=
  match cf_sections mf !! section with
  | None => Raise (no_section_error section)
  | Some d =>
      match (d ∪ parser_defaults mf) !! option with
      | Some v => Return v
      | None => Raise (no_option_error option section)
      end
  end.

(** [dict(mf.items(section))], likewise for values that hold no [%]. *)
Definition mf_items (mf : config_file) (section : string)
  : outcome (gmap string string) :=
  match cf_sections mf !! section with
  | None => Raise (no_section_error section)
  | Some d => Return (d ∪ parser_defaults mf)
  end.

(** ** Service modules *)

(** The attributes of a service module that discovery looks at: a
    callable (invoked as [_init_(logger=..., settings=...)], it may log
    and may raise), a route table, or any other object. *)
Inductive pyobj : Type :=
  | OFunc (call : option (gmap string string) -> M logger unit)
  | ORoutes (rules : list rule)
  | OOther.

(** A module is its namespace. *)
Definition py_module := gmap string pyobj.

(** ** The world discovery runs in *)

Record world : Type := mkWorld {
  (** [os.listdir(path)] *)
  os_listdir : string -> outcome (list string);
  (** [os.path.isdir(path)] *)
  os_isdir : string -> bool;
  (** what [mf.read(path)] leaves in the parser; an unreadable file
      leaves it empty, a malformed one raises *)
  read_config : string -> outcome config_file;
  (** [importlib.import_module(name)] *)
  import_module : string -> outcome py_module;
  (** [re.compile(s)]: [None] when the pattern compiles, else the message
      of the [re.error] *)
  re_compile : string -> option string;
  (** [self._http_server.listen(port)], as the system answers it in this
      world: a port that a previous call has bound is a world in which the
      call raises. *)
  http_listen : Z -> outcome unit
}.

(** [os.path.join(a, b)] (posixpath) *)
Definition path_join (a b : string) : string :=
  if starts_with SEP b then b
  else if (String.eqb a "" || ends_with SEP a)%bool then a +:+ b
  else a +:+ "/" +:+ b.

(** ** Logging calls on a logger *)

Definition log_call (lvl : level) (fmt : string) (args : list log_arg) : M logger unit :=
  modify (fun lg => lg ++ [mkLog lvl fmt args false]).

(** [logger.exception(msg)]: level ERROR, traceback attached *)
Definition log_exception (msg : string) : M logger unit :=
  modify (fun lg => lg ++ [mkLog ERROR msg [] true]).

(** An outcome computed without touching the state. *)
Definition lift {S A} (o : outcome A) : M S A := fun s => (s, o).

(** [for x in l: acc = body x acc] *)
Fixpoint for_each {S A B} (body : A -> B -> M S B) (l : list A) (acc : B) : M S B :=
  match l with
  | [] => ret acc
  | x :: rest => acc' <- body x acc ;; for_each body rest acc'
  end.

(** ** Services discovery ([AppServer._discover_services]) *)

(** [marker_files = {MANIFEST_FILE_NAME, '__init__.py'}] *)
Definition marker_files : list string := [MANIFEST_FILE_NAME; "__init__.py"].

(** [marker_files.issubset(listing)] *)
Definition has_markers (listing : list string) : bool :=
  forallb (fun m => bool_decide (m ∈ listing)) marker_files.

(** The double quote character. *)
Definition DQUOTE : string := String (Ascii.ascii_of_nat 34) EmptyString.

(** [Exception('"%s" is an invalid route specification (%s)' % (effective_url, e.message))] *)
Definition invalid_route (effective_url msg : string) : exn :=
  simple_exn PlainException
    (DQUOTE +:+ effective_url +:+ DQUOTE +:+
     " is an invalid route specification (" +:+ msg +:+ ")").

(** Instance attributes of an [AppServer]. [_ioloop] and [_handlers]
    refer to objects of the store. *)
Record AppServer : Type := mkAppServer {
  _app_url_base : string;
  _port : Z;
  _debug : bool;
  _services : option (list ServiceDescriptor);
  _ioloop : option loc;
  _services_home : string;
  _handlers : option loc
}.

(** [AppServer(url_base="/api/", port=8888, debug=False)], with the
    class-level services home. *)
Definition new_AppServer (home : string) : AppServer :=
  mkAppServer "/api/" 8888 false None None home None.

(** [getattr(module, name)] *)
Definition getattr (module : py_module) (name : string) : outcome pyobj :=
  match module !! name with
  | Some o => Return o
  | None =>
      Raise (simple_exn AttributeError
               ("'module' object has no attribute '" +:+ name +:+ "'"))
  end.

(** [for rule in mapping]: only a route table can be iterated. *)
Definition iter_rules (mapping : pyobj) : outcome (list rule) :=
  match mapping with
  | ORoutes rules => Return rules
  | _ => Raise (simple_exn (UserError "TypeError") "object is not iterable")
  end.

(** Body of the loop over [mapping] (lines 309 to 316). *)
Definition expand_rule (w : world) (app_url_base service_name : string)
    (r : rule) (handlers : list rule) : M logger (list rule) :=
  let url := effective_url app_url_base service_name (rule_pattern r) in
  match re_compile w url with
  | Some msg => raise (invalid_route url msg)
  | None => ret (handlers ++ [mkRule url (rule_tail r)])
  end.

(** The settings handed to [_init_] (lines 296 to 299). *)
Definition load_settings (mf : config_file) : M logger (option (gmap string string)) :=
  try_except
    (d <- lift (mf_items mf MANIFEST_SETTINGS_SECTION) ;; ret (Some d))
    (fun e => match exn_class_of e with NoSectionError => true | _ => false end)
    (fun _ => ret None).

(** Lines 288 to 302: run the module's [_init_] when it has a callable
    one. *)
Definition run_init (mf : config_file) (module : py_module) : M logger unit :=
  match module !! "_init_" with
  | Some (OFunc init_func) =>
      log_call INFO "... invoking module _init_ function..." [] ;;;
      settings <- load_settings mf ;;
      init_func settings ;;;
      log_call INFO "... module _init_ OK" []
  | _ => ret tt
  end.

(** The [try] block (lines 286 to 318). *)
Definition load_service (w : world) (self : AppServer) (mf : config_file)
    (service_name label mapping_attr module_name : string)
    (services : list ServiceDescriptor) : M logger (list ServiceDescriptor) :=
  module <- lift (import_module w module_name) ;;
  run_init mf module ;;;
  mapping <- lift (getattr module mapping_attr) ;;
  rules <- lift (iter_rules mapping) ;;
  handlers <- for_each (expand_rule w (_app_url_base self) service_name) rules [] ;;
  let services' := services ++ [mkServiceDescriptor service_name label handlers] in
  log_call INFO ">>> success" [] ;;;
  ret services'.

(** The two [except] clauses (lines 320 to 326): the first one that
    matches handles the exception. *)
Definition load_service_guarded (w : world) (self : AppServer) (mf : config_file)
    (service_name label mapping_attr module_name : string)
    (services : list ServiceDescriptor) : M logger (list ServiceDescriptor) :=
  try_except
    (load_service w self mf service_name label mapping_attr module_name services)
    (fun e => is_Import_or_Attribute e || is_Exception e)%bool
    (fun e =>
       if is_Import_or_Attribute e then
         log_exception
           ("[" +:+ class_name (exn_class_of e) +:+ "] " +:+ exn_str e) ;;;
         raise e
       else
         log_exception (exn_str e) ;;;
         log_call ERROR
           "*** Could not load service '%s' because of previous exception"
           [AStr service_name] ;;;
         ret services).

(** Body of the loop over the sorted directory names (lines 268 to 326). *)
Definition discover_one (w : world) (self : AppServer) (home : string)
    (service_name : string) (services : list ServiceDescriptor)
  : M logger (list ServiceDescriptor) :=
  let service_path := path_join home service_name in
  log_call INFO "analysing directory %s..." [AStr service_path] ;;;
  listing <- lift (os_listdir w service_path) ;;
  if negb (has_markers listing) then
    log_call INFO "*** expected files not found => discarded" [] ;;;
    ret services
  else
    log_call INFO "... valid service location" [] ;;;
    let manifest_path := path_join service_path MANIFEST_FILE_NAME in
    mf <- lift (read_config w manifest_path) ;;
    label <- lift (mf_get mf MANIFEST_MAIN_SECTION "label") ;;
    mapping_attr <- lift (mf_get mf MANIFEST_MAIN_SECTION "mapping") ;;
    let module_name := SERVICES_PACKAGE_NAME +:+ "." +:+ service_name in
    log_call INFO "... loading service '%s' from module '%s'..."
      [AStr service_name; AStr module_name] ;;;
    load_service_guarded w self mf service_name label mapping_attr module_name services.

(** [sorted([d for d in os.listdir(home) if os.path.isdir(os.path.join(home, d))])] *)
Definition service_dirs (w : world) (home : string) (entries : list string) : list string :=
  merge_sort String.le
    (filter (fun d => Is_true (os_isdir w (path_join home d))) entries).

(** Lines 257 and 258: [if not home: home = self._services_home] *)
Definition resolve_home (self : AppServer) (home : option string) : string :=
  match home with
  | None | Some "" => _services_home self
  | Some h => h
  end.

(** [_discover_services(self, home=None)] *)
Definition _discover_services (w : world) (self : AppServer) (home : option string)
  : M logger (list ServiceDescriptor) :=
  let home := resolve_home self home in
  log_call DEBUG ("discovering services stored in " +:+ home) [] ;;;
  entries <- lift (os_listdir w home) ;;
  for_each (discover_one w self home) (service_dirs w home entries) [].

(** *** Vocabulary of the properties of discovery *)

(** The manifest has no [[service]] section, or that section has no
    [label] option and the [[DEFAULT]] section does not supply one. *)
Definition lacks_label (mf : config_file) : Prop :=
  cf_sections mf !! MANIFEST_MAIN_SECTION = None
  \/ exists d, cf_sections mf !! MANIFEST_MAIN_SECTION = Some d
               /\ d !! "label" = None /\ cf_default mf !! "label" = None.

(** The log lines of the loop body. *)
Definition analysing (home n : string) : log_record :=
  mkLog INFO "analysing directory %s..." [AStr (path_join home n)] false.
Definition valid_location : log_record :=
  mkLog INFO "... valid service location" [] false.
Definition loading (n : string) : log_record :=
  mkLog INFO "... loading service '%s' from module '%s'..."
    [AStr n; AStr (SERVICES_PACKAGE_NAME +:+ "." +:+ n)] false.
Definition could_not_load (n : string) : log_record :=
  mkLog ERROR "*** Could not load service '%s' because of previous exception"
    [AStr n] false.

(** A sub-directory of [home] that passes the marker check and whose
    manifest has been read into [mf]. *)
Definition candidate (w : world) (home n : string) (mf : config_file) : Prop :=
  exists listing,
    os_listdir w (path_join home n) = Return listing
    /\ has_markers listing = true
    /\ read_config w (path_join (path_join home n) MANIFEST_FILE_NAME) = Return mf.

(** The directory names the loop of [_discover_services] goes through. *)
Definition scanned (w : world) (home : string) (entries : list string) (n : string) : Prop :=
  n ∈ entries /\ os_isdir w (path_join home n) = true.


(** The package of directory [n] is imported and initialised, and its
    route table is [rules]. *)
Definition loads_routes (w : world) (mf : config_file) (n mapping_attr : string)
    (rules : list rule) : Prop :=
  exists module,
    import_module w (SERVICES_PACKAGE_NAME +:+ "." +:+ n) = Return module
    /\ (forall lg, exists lg', run_init mf module lg = (lg', Return tt))
    /\ module !! mapping_attr = Some (ORoutes rules).

(** The value of an outcome that returned. *)
Definition returned {A} (o : outcome A) (d : A) : A :=
  match o with
  | Return a => a
  | Raise _ => d
  end.

(** ** The process: objects shared through references *)

(** The store: the list objects route tables are kept in, the
    [AppServer] instances, the logger named [APP_NAME] (one object per
    process, whichever instance asks for it) and the class-level
    [_muted_requests] list. *)
Record process : Type := mkProcess {
  p_lists : gmap loc (list rule);
  p_servers : gmap loc AppServer;
  p_log : logger;
  _muted_requests : list string
}.

(** Class attributes of [AppServer]: the addresses of the two list
    objects created with the class. No code of the module rebinds them,
    on the class or on an instance. *)
Definition toplevel_handlers : loc := 1%positive.
Definition fallback_handlers : loc := 2%positive.

(** [tornado.ioloop.IOLoop.instance()] *)
Definition IOLOOP : loc := 3%positive.

(** The store when the module has just been imported:
    [toplevel_handlers = []] and
    [fallback_handlers = [(r"/.*", InvalidRequest)]]. *)
Definition fresh_process : process :=
  mkProcess
    {[ toplevel_handlers := [];
       fallback_handlers := [mkRule "/.*" [IClass (cls_name InvalidRequest)]] ]}
    ∅ [] [].

Definition with_log {A} (c : M logger A) : M process A :=
  fun p =>
    match c (p_log p) with
    | (lg, o) => (mkProcess (p_lists p) (p_servers p) lg (_muted_requests p), o)
    end.

Definition p_info (fmt : string) (args : list log_arg) : M process unit :=
  with_log (log_call INFO fmt args).

(** Reading the elements of a list object. *)
Definition read_list (l : loc) : M process (list rule) :=
  fun p => (p, Return (default [] (p_lists p !! l))).

(** [l.extend(xs)]: the object at [l] grows in place. *)
Definition list_extend (l : loc) (xs : list rule) : M process unit :=
  modify (fun p =>
    mkProcess (alter (fun old => old ++ xs) l (p_lists p))
      (p_servers p) (p_log p) (_muted_requests p)).

(** The instance a reference stands for. *)
Definition server_at (p : process) (self : loc) : AppServer :=
  default (new_AppServer "") (p_servers p !! self).

Definition get_server (self : loc) : M process AppServer :=
  fun p => (p, Return (server_at p self)).

Definition update_server (self : loc) (f : AppServer -> AppServer) : M process unit :=
  modify (fun p =>
    mkProcess (p_lists p) (alter f self (p_servers p)) (p_log p) (_muted_requests p)).

Definition set_services (v : option (list ServiceDescriptor)) (s : AppServer) : AppServer :=
  mkAppServer (_app_url_base s) (_port s) (_debug s) v (_ioloop s)
    (_services_home s) (_handlers s).

Definition set_ioloop (v : option loc) (s : AppServer) : AppServer :=
  mkAppServer (_app_url_base s) (_port s) (_debug s) (_services s) v
    (_services_home s) (_handlers s).

Definition set_handlers (v : option loc) (s : AppServer) : AppServer :=
  mkAppServer (_app_url_base s) (_port s) (_debug s) (_services s) (_ioloop s)
    (_services_home s) v.

(** ** Route table assembly ([AppServer._setup_handlers]) *)

Definition _setup_handlers (self : loc) (services : list ServiceDescriptor)
  : M process loc :=
  let handlers := toplevel_handlers in
  for_each (fun service (_ : unit) => list_extend handlers (sd_handlers service))
    services tt ;;;
  fallback <- read_list fallback_handlers ;;
  list_extend handlers fallback ;;;
  ret handlers.

(** ** The [services] property ([AppServer._get_services]) *)

Definition _get_services (w : world) (self : loc) : M process (list ServiceDescriptor) :=
  s <- get_server self ;;
  match _services s with
  | Some services => ret services
  | None =>
      services <- with_log (_discover_services w s None) ;;
      update_server self (set_services (Some services)) ;;;
      (if Nat.eqb (length services) 0
       then with_log (log_call WARNING "No service found" [])
       else ret tt) ;;;
      ret services
  end.

(** ** Server start ([AppServer.start]) *)

(** One line of the dispatch table log: [pattern, handler = rule[:2]]
    then [handler.__name__]. *)
Definition log_rule (r : rule) (_ : unit) : M process unit :=
  match rule_tail r with
  | IClass name :: _ =>
      p_info " - %s -> %s" [AStr (rule_pattern r); AStr name]
  | IDict _ :: _ =>
      raise (simple_exn AttributeError "'dict' object has no attribute '__name__'")
  | [] =>
      raise (simple_exn (UserError "ValueError") "need more than 1 value to unpack")
  end.

(** [start(self, custom_settings)]. [loop] is what happens while
    [self._ioloop.start()] blocks: it returns when the loop is stopped and
    raises what escapes from it. The settings dictionary only reaches the
    [tornado.web.Application] constructor and is left out. *)
Definition start (w : world) (loop : M process unit) (self : loc) : M process unit :=
  s <- get_server self ;;
  match _ioloop s with
  | Some _ => raise (simple_exn RuntimeError "server already started")
  | None =>
      p_info "server initializing" [] ;;;
      services <- _get_services w self ;;
      handlers <- _setup_handlers self services ;;
      update_server self (set_handlers (Some handlers)) ;;;
      p_info "url dispatch rules:" [] ;;;
      rules <- read_list handlers ;;
      for_each log_rule rules tt ;;;
      lift (http_listen w (_port s)) ;;;
      p_info "listening on port %d" [AInt (_port s)] ;;;
      update_server self (set_ioloop (Some IOLOOP)) ;;;
      p_info "web server started" [] ;;;
      try_except loop
        (fun e => match exn_class_of e with KeyboardInterrupt => true | _ => false end)
        (fun _ => p_info "SIGINT received." []) ;;;
      update_server self (set_ioloop None) ;;;
      p_info "terminated" []
  end.

(** ** Request logging ([AppServer._log_request]) *)

(** What [_log_request] reads from the handler of a completed request. *)
Record completed : Type := mkCompleted {
  c_status : Z;
  c_uri : string;
  c_disable_request_logging : option bool;
  c_summary : string;
  c_request_time : Z
}.

(** The last statement of [_log_request] (lines 477 to 481). *)
Definition log_summary (lvl : level) (c : completed) : M process unit :=
  with_log (log_call lvl "%d %s %.2fms"
              [AInt (c_status c); AStr (c_summary c); AMillis (c_request_time c)]).

Definition mute (key : string) : M process unit :=
  modify (fun p =>
    mkProcess (p_lists p) (p_servers p) (p_log p) (_muted_requests p ++ [key])).

Definition _log_request (c : completed) : M process unit :=
  if c_status c <? 400 then
    let key := c_uri c in
    p <- get_state ;;
    if bool_decide (key ∈ _muted_requests p) then ret tt
    else
      let dont_log := default false (c_disable_request_logging c) in
      (if dont_log then
         mute key ;;;
         with_log (log_call WARNING "request '%s' is muted => last time we log it"
                     [AStr key])
       else ret tt) ;;;
      log_summary INFO c
  else if c_status c <? 500 then log_summary WARNING c
  else log_summary ERROR c.

(** The requests completed in a process, in order. *)
Definition run_requests (cs : list completed) : M process unit :=
  for_each (fun c (_ : unit) => _log_request c) cs tt.

(** *** Vocabulary of the properties of request logging *)

(** A completed request that puts [key] in the mute list, unless it is
    there already: same URI, status below 400, handler flagged. *)
Definition mutes (key : string) (c : completed) : bool :=
  String.eqb (c_uri c) key && (c_status c <? 400)
  && default false (c_disable_request_logging c).

Definition summary_record (lvl : level) (c : completed) : log_record :=
  mkLog lvl "%d %s %.2fms"
    [AInt (c_status c); AStr (c_summary c); AMillis (c_request_time c)] false.

Definition muted_warning (key : string) : log_record :=
  mkLog WARNING "request '%s' is muted => last time we log it" [AStr key] false.

(** *** Example processes *)

(** A process with one server, not started yet. *)
Definition example_self : loc := 10%positive.

Definition process_with (s : AppServer) : process :=
  mkProcess (p_lists fresh_process) {[ example_self := s ]} [] [].

Definition already_started : exn :=
  simple_exn RuntimeError "server already started".

(** ** Example worlds *)

(** A services home described by its sub-directories: name, listing,
    what the parser holds after reading the manifest, and what importing
    the package gives. *)
Record plugin_dir : Type := mkPluginDir {
  pd_name : string;
  pd_listing : list string;
  pd_manifest : outcome config_file;
  pd_module : outcome py_module
}.

Definition os_error (path : string) : exn :=
  simple_exn (UserError "OSError") ("No such file or directory: '" +:+ path +:+ "'").

Definition import_error (name : string) : exn :=
  simple_exn ImportError ("No module named " +:+ name).

(** A pattern checker for the examples: a closing parenthesis needs an
    opening one and every opening one must be closed, as [re.compile]
    requires; everything else is let through. *)
Fixpoint paren_check (depth : nat) (s : string) : option string :=
  match s with
  | EmptyString =>
      match depth with
      | O => None
      | S _ => Some "unbalanced parenthesis"
      end
  | String "("%char s' => paren_check (S depth) s'
  | String ")"%char s' =>
      match depth with
      | O => Some "unbalanced parenthesis"
      | S d => paren_check d s'
      end
  | String _ s' => paren_check depth s'
  end.

(** The world made of a home directory holding the given sub-directories
    and plain files. *)
Definition world_of (home : string) (dirs : list plugin_dir) (files : list string) : world :=
  let dir_at (path : string) :=
    find (fun d => String.eqb (path_join home (pd_name d)) path) dirs in
  mkWorld
    (fun path =>
       if String.eqb path home then Return (map pd_name dirs ++ files)
       else match dir_at path with
            | Some d => Return (pd_listing d)
            | None => Raise (os_error path)
            end)
    (fun path => match dir_at path with Some _ => true | None => false end)
    (fun path =>
       match find (fun d =>
                String.eqb (path_join (path_join home (pd_name d)) MANIFEST_FILE_NAME) path)
               dirs with
       | Some d => pd_manifest d
       | None => Return (mkConfig ∅ ∅)
       end)
    (fun name =>
       match find (fun d =>
                String.eqb (SERVICES_PACKAGE_NAME +:+ "." +:+ pd_name d) name) dirs with
       | Some d => pd_module d
       | None => Raise (import_error name)
       end)
    (paren_check 0)
    (fun _ => Return tt).

Definition manifest_with_label (label : string) : config_file :=
  mkConfig ∅ {[ MANIFEST_MAIN_SECTION := {[ "label" := label ]} ]}.

Definition package_files : list string := ["__init__.py"; "MANIFEST"; "handlers.py"].

(** A well-formed service: a manifest with a label and a module exposing
    a route table under [handlers]. *)
Definition good_plugin (name label : string) (rules : list rule) : plugin_dir :=
  mkPluginDir name package_files (Return (manifest_with_label label))
    (Return {[ "handlers" := ORoutes rules ]}).

Definition hello_rules : list rule :=
  [mkRule "/say" [IClass "SayHelloHandler"; IDict ∅]].

Definition diags_rules : list rule :=
  [mkRule "/hello" [IClass "HelloHandler"; IDict ∅];
   mkRule "routes" [IClass "RoutesHandler"; IDict ∅]].

Definition example_home : string := "/opt/cstbox/services".

Definition example_server : AppServer := new_AppServer example_home.

(** Two services, a directory without the marker files and a plain
    file. *)
Definition plain_world : world :=
  world_of example_home
    [good_plugin "hello" "Hello" hello_rules;
     mkPluginDir "docs" ["README"] (Return (mkConfig ∅ ∅)) (Raise (import_error "docs"));
     good_plugin "_diags" "Diagnostics" diags_rules]
    ["README.txt"].

(** Two well-formed services and one whose manifest has a [[service]]
    section without [label]. *)
Definition missing_label_world : world :=
  world_of example_home
    [good_plugin "zeta" "Zeta" hello_rules;
     mkPluginDir "beta" package_files
       (Return (mkConfig ∅ {[ MANIFEST_MAIN_SECTION := ∅ ]}))
       (Return {[ "handlers" := ORoutes hello_rules ]});
     good_plugin "alpha" "Alpha" diags_rules]
    [].

(** Two well-formed services and one whose package cannot be imported. *)
Definition missing_module_world : world :=
  world_of example_home
    [good_plugin "zeta" "Zeta" hello_rules;
     mkPluginDir "beta" package_files (Return (manifest_with_label "Beta"))
       (Raise (import_error "beta"));
     good_plugin "alpha" "Alpha" diags_rules]
    [].

(** Two well-formed services and one whose second route does not
    compile. *)
Definition bad_route_world : world :=
  world_of example_home
    [good_plugin "zeta" "Zeta" hello_rules;
     good_plugin "beta" "Beta"
       [mkRule "/ok" [IClass "OkHandler"]; mkRule "/item/(\d+" [IClass "ItemHandler"]];
     good_plugin "alpha" "Alpha" diags_rules]
    [].



(** ** The example services ([services/hello], [services/_diags]) *)

(** Body of [HelloHandler.do_get] and [SayHelloHandler.do_post].
    [get_argument name] is the request argument [name] when the request
    has one; [self.get_argument('to', 'World')] supplies the default.
    [self._logger.debug(...)] needs a logger: on [None] the attribute
    access raises. *)
Definition say_hello (get_argument : string -> option string) : M handler unit :=
  let to_who := default "World" (get_argument "to") in
  fun h =>
    match h_logger h with
    | None =>
        (h, Raise (simple_exn AttributeError
                     "'NoneType' object has no attribute 'debug'"))
    | Some _ =>
        (h_log (mkLog DEBUG "saying hello to %s" [AStr to_who] false) ;;;
         write {[ "message" := JStr ("Hello " +:+ to_who) ]}) h
    end.

(** A method declared with [self] as its only parameter: it takes no
    URL capture. *)
Definition no_capture (name : string) (body : M handler unit) : method :=
  fun args =>
    match args with
    | [] => body
    | _ => raise (simple_exn (UserError "TypeError")
                    (name +:+ "() takes exactly 1 argument"))
    end.

(** [_diags.HelloHandler] *)
Definition HelloHandler (get_argument : string -> option string) : handler_class :=
  mkClass "HelloHandler" (Some (no_capture "do_get" (say_hello get_argument)))
    None None None None.

(** [hello.SayHelloHandler] *)
Definition SayHelloHandler (get_argument : string -> option string) : handler_class :=
  mkClass "SayHelloHandler" None (Some (no_capture "do_post" (say_hello get_argument)))
    None None None.

(** The response after [flush()]. *)
Definition flushed (h : handler) : handler :=
  mkHandler (h_status h) [] (h_sent h ++ h_write_buffer h) true (h_finished h) (h_logger h).

(** ** More vocabulary for discovery *)

(** The route tuple discovery makes of a local one. *)
Definition namespace_rule (app_url_base service_name : string) (r : rule) : rule :=
  mkRule (effective_url app_url_base service_name (rule_pattern r)) (rule_tail r).

(** [c in s] for a character. *)
Fixpoint contains_char (c : ascii) (s : string) : bool :=
  match s with
  | EmptyString => false
  | String a s' => Ascii.eqb a c || contains_char c s'
  end.

(** A sub-directory of [home] from which discovery makes the descriptor
    [d]: both marker files, a manifest with a label and a mapping key, a
    module that is imported and initialised and whose route table
    compiles once namespaced. *)
Definition well_formed_service (w : world) (self : AppServer) (home n : string)
    (d : ServiceDescriptor) : Prop :=
  exists mf mapping_attr rules,
    candidate w home n mf
    /\ mf_get mf MANIFEST_MAIN_SECTION "label" = Return (sd_label d)
    /\ mf_get mf MANIFEST_MAIN_SECTION "mapping" = Return mapping_attr
    /\ loads_routes w mf n mapping_attr rules
    /\ Forall (fun r =>
         re_compile w (effective_url (_app_url_base self) n (rule_pattern r)) = None) rules
    /\ sd_name d = n
    /\ sd_handlers d = map (namespace_rule (_app_url_base self) n) rules.

(** ** The two halves of [start] *)

(** Lines 392 to 425: everything up to the call of the loop. *)
Definition start_setup (w : world) (self : loc) : M process unit :=
  s <- get_server self ;;
  match _ioloop s with
  | Some _ => raise (simple_exn RuntimeError "server already started")
  | None =>
      p_info "server initializing" [] ;;;
      services <- _get_services w self ;;
      handlers <- _setup_handlers self services ;;
      update_server self (set_handlers (Some handlers)) ;;;
      p_info "url dispatch rules:" [] ;;;
      rules <- read_list handlers ;;
      for_each log_rule rules tt ;;;
      lift (http_listen w (_port s)) ;;;
      p_info "listening on port %d" [AInt (_port s)] ;;;
      update_server self (set_ioloop (Some IOLOOP)) ;;;
      p_info "web server started" []
  end.

(** Lines 426 to 434: the loop and what follows it. *)
Definition start_loop (loop : M process unit) (self : loc) : M process unit :=
  try_except loop
    (fun e => match exn_class_of e with KeyboardInterrupt => true | _ => false end)
    (fun _ => p_info "SIGINT received." []) ;;;
  update_server self (set_ioloop None) ;;;
  p_info "terminated" [].

(** ** The launcher ([bin/websvcd.py]) *)

(** [AppServer.__init__(self, debug=...)], the new instance being stored
    at [self]; [home] is the class-level [_services_home]. *)
Definition AppServer_init (self : loc) (home : string) (debug : bool) : M process unit :=
  modify (fun p =>
    mkProcess (p_lists p)
      (<[self := mkAppServer "/api/" 8888 debug None None home None]> (p_servers p))
      (p_log p) (_muted_requests p)) ;;;
  if debug
  then with_log (log_call WARNING "AppServer instantiated with debug mode activated" [])
  else ret tt.

(** The [__main__] block: the result is the exit status of the process,
    2 after [sys.exit(2)] and 0 when the script runs to its end. [debug]
    is [args.debug]; the logger level taken from the arguments has no
    part in what is logged here. *)
Definition websvcd_main (w : world) (loop : M process unit) (home : string)
    (debug : bool) (server : loc) : M process Z :=
  AppServer_init server home debug ;;;
  try_except
    (list_extend toplevel_handlers [] ;;;
     start w loop server ;;;
     ret 0)
    is_Exception
    (fun e =>
       with_log (log_exception (exn_str e)) ;;;
       with_log (log_call CRITICAL "aborting server start" []) ;;;
       ret 2).

(** A loop stopped by an interactive interrupt. *)
Definition interrupted_loop : M process unit :=
  raise (simple_exn KeyboardInterrupt "").

(** A loop that dies of an error of a callback. *)
Definition crashing_loop : M process unit :=
  raise (simple_exn (UserError "IOError") "event loop failure").

(** A home without any service, and one whose only sub-directory has no
    marker file. *)
Definition empty_world : world :=
  world_of example_home [] ["README.txt"].

(** A world in which the port cannot be bound. *)
Definition port_in_use (w : world) : world :=
  mkWorld (os_listdir w) (os_isdir w) (read_config w) (import_module w) (re_compile w)
    (fun _ => Raise (simple_exn (UserError "error") "Address already in use")).

(** The [do_*] method a class defines for a verb, if it does. *)
Definition override (c : handler_class) (v : verb) : option method :=
  match v with
  | GET => cls_do_get c
  | POST => cls_do_post c
  | PUT => cls_do_put c
  | DELETE => cls_do_delete c
  end.

(** The reply of [reply_not_implemented] on a fresh handler, once the
    request is finished. *)
Definition not_implemented_reply (lg : option logger) : handler :=
  mkHandler 501 [] [{[ "message" := JStr "not yet implemented" ]}] true true lg.

(** What discovery makes of a list of directory names: a directory
    without the marker files gives nothing, a well-formed one gives its
    descriptor. *)
Inductive discovers (w : world) (self : AppServer) (home : string)
  : list string -> list ServiceDescriptor -> Prop :=
  | discovers_nil : discovers w self home [] []
  | discovers_skip n names ds listing :
      os_listdir w (path_join home n) = Return listing ->
      has_markers listing = false ->
      discovers w self home names ds ->
      discovers w self home (n :: names) ds
  | discovers_cons n names d ds :
      well_formed_service w self home n d ->
      discovers w self home names ds ->
      discovers w self home (n :: names) (d :: ds).


(** A service whose [_init_] raises the given exception. *)
Definition failing_init_plugin (name : string) (e : exn) : plugin_dir :=
  mkPluginDir name package_files (Return (manifest_with_label name))
    (Return {[ "_init_" := OFunc (fun _ => raise e);
               "handlers" := ORoutes hello_rules ]}).

(** The routes of a descriptor are local routes put under the name space
    of the service, and each of them compiles. *)
Definition routes_namespaced (w : world) (self : AppServer) (d : ServiceDescriptor) : Prop :=
  (exists rules, sd_handlers d = map (namespace_rule (_app_url_base self) (sd_name d)) rules)
  /\ Forall (fun r => re_compile w (rule_pattern r) = None) (sd_handlers d).



(** The store in which the launcher calls [start]: the server has been
    created and [toplevel_handlers] extended with the (empty) list of
    the launcher. *)
Definition launch_state (home : string) (debug : bool) (server : loc) (p : process)
  : process :=
  fst ((AppServer_init server home debug ;;; list_extend toplevel_handlers []) p).

(** The two lines the launcher logs before it exits with status 2. *)
Definition abort_log (e : exn) : list log_record :=
  [mkLog ERROR (exn_str e) [] true; mkLog CRITICAL "aborting server start" [] false].

(** * Properties *)

(** ** Strings and route namespacing *)

Lemma app_String a s t : String a s +:+ t = String a (s +:+ t).
Proof. reflexivity. Qed.

Lemma string_app_assoc s t u : (s +:+ t) +:+ u = s +:+ (t +:+ u).
Proof.
  induction s as [|a s IH]; [done|]. by rewrite !app_String, IH.
Qed.

Lemma lstrip_decompose c s :
  exists k, s = replicate_char k c +:+ lstrip c s.
Proof.
  induction s as [|a s [k IH]]; [by exists 0%nat|].
  simpl. destruct (Ascii.eqb_spec a c) as [->|Hne].
  - exists (S k). simpl. rewrite app_String. by f_equal.
  - by exists 0%nat.
Qed.

Lemma lstrip_no_sep c s : starts_with c (lstrip c s) = false.
Proof.
  induction s as [|a s IH]; [done|].
  simpl. destruct (Ascii.eqb a c) eqn:E; [done|]. simpl. by rewrite E.
Qed.

Lemma rstrip_decompose c s :
  exists k, s = rstrip c s +:+ replicate_char k c.
Proof.
  induction s as [|a s [k IH]]; [by exists 0%nat|].
  simpl. destruct (rstrip c s) as [|b r] eqn:Er.
  - destruct (Ascii.eqb_spec a c) as [->|Hne].
    + exists (S k). simpl. f_equal. by rewrite IH at 1.
    + exists k. rewrite app_String. f_equal. by rewrite IH at 1.
  - exists k. rewrite app_String. f_equal. by rewrite IH at 1.
Qed.

Lemma rstrip_no_sep c s : ends_with c (rstrip c s) = false.
Proof.
  induction s as [|a s IH]; [done|].
  simpl. destruct (rstrip c s) as [|b r] eqn:Er.
  - destruct (Ascii.eqb a c) eqn:E; [done|]. simpl. by rewrite E.
  - simpl in *. done.
Qed.

Lemma strip_one_lstrip c s :
  starts_with c (strip_one c s) = false -> lstrip c s = strip_one c s.
Proof.
  destruct s as [|a s]; [done|]. simpl.
  destruct (Ascii.eqb a c) eqn:E; [|done].
  destruct s as [|b s]; [done|]. simpl. by intros ->.
Qed.

(** C4 (as the code has it): the effective URL is the application URL
    base without any of its trailing separators, one separator, the
    service name, one separator, and the local pattern without any of its
    leading separators. What is cut off on either side consists of
    separators only, the left part does not end with a separator and the
    right part does not start with one; when the local pattern has at most
    one leading separator this is the pattern with that separator
    removed. *)
Theorem effective_url_joins (app_url_base service_name pattern : string) :
  effective_url app_url_base service_name pattern
    = rstrip SEP app_url_base +:+ "/" +:+ service_name +:+ "/" +:+ lstrip SEP pattern
  /\ (exists i, app_url_base = rstrip SEP app_url_base +:+ replicate_char i SEP)
  /\ (exists j, pattern = replicate_char j SEP +:+ lstrip SEP pattern)
  /\ ends_with SEP (rstrip SEP app_url_base) = false
  /\ starts_with SEP (lstrip SEP pattern) = false
  /\ (starts_with SEP (strip_one SEP pattern) = false ->
      effective_url app_url_base service_name pattern
        = spec_effective_url app_url_base service_name pattern).
Proof.
  repeat split.
  - unfold effective_url, url_base. by rewrite !string_app_assoc.
  - apply rstrip_decompose.
  - apply lstrip_decompose.
  - apply rstrip_no_sep.
  - apply lstrip_no_sep.
  - intros H. unfold effective_url, spec_effective_url.
    by rewrite (strip_one_lstrip _ _ H).
Qed.

(** The route of the documentation: [/bar] and [bar] in service [foo]
    both give [/api/foo/bar]. *)
Example effective_url_foo_bar :
  effective_url "/api/" "foo" "/bar" = "/api/foo/bar"
  /\ effective_url "/api/" "foo" "bar" = "/api/foo/bar".
Proof. split; reflexivity. Qed.

(** C4 (as stated) fails: with two leading separators in the local
    pattern the code removes both, so the effective URL is the base
    followed neither by the pattern nor by the pattern less one
    separator. *)
Lemma strips_more_than_one_separator :
  effective_url "/api/" "foo" "//bar" = "/api/foo/bar"
  /\ effective_url "/api/" "foo" "//bar" <> url_base "/api/" "foo" +:+ "//bar"
  /\ effective_url "/api/" "foo" "//bar" <> spec_effective_url "/api/" "foo" "//bar".
Proof. repeat split; vm_compute; congruence. Qed.

(** ** The monad *)

Lemma bind_Return {S A B} (c : M S A) (k : A -> M S B) s s1 a :
  c s = (s1, Return a) -> bind c k s = k a s1.
Proof. intros H. unfold bind. by rewrite H. Qed.

Lemma bind_Raise {S A B} (c : M S A) (k : A -> M S B) s s1 e :
  c s = (s1, Raise e) -> bind c k s = (s1, Raise e).
Proof. intros H. unfold bind. by rewrite H. Qed.

Lemma bind_inv_Return {S A B} (c : M S A) (k : A -> M S B) s s' b :
  bind c k s = (s', Return b) ->
  exists a s1, c s = (s1, Return a) /\ k a s1 = (s', Return b).
Proof.
  unfold bind. destruct (c s) as [s1 [a|e]]; [eauto|discriminate].
Qed.

Lemma lift_inv_Return {S A} (o : outcome A) (s s' : S) a :
  lift o s = (s', Return a) -> o = Return a /\ s' = s.
Proof. unfold lift. intros [= <- ->]. done. Qed.

Lemma for_each_cons_Return {S A B} (body : A -> B -> M S B) x l acc s s1 acc1 :
  body x acc s = (s1, Return acc1) ->
  for_each body (x :: l) acc s = for_each body l acc1 s1.
Proof. intros H. simpl. by apply bind_Return. Qed.

Lemma for_each_cons_Raise {S A B} (body : A -> B -> M S B) x l acc s s1 e :
  body x acc s = (s1, Raise e) ->
  for_each body (x :: l) acc s = (s1, Raise e).
Proof. intros H. simpl. by apply bind_Raise. Qed.

(** A loop one of whose iterations raises whatever it starts from never
    returns normally. *)
Lemma for_each_raises {S A B} (body : A -> B -> M S B) (x : A) (l : list A) :
  x ∈ l ->
  (forall acc s, exists s' e, body x acc s = (s', Raise e)) ->
  forall acc s, exists s' e, for_each body l acc s = (s', Raise e).
Proof.
  intros Hin Hx. induction l as [|y l IH]; [by apply elem_of_nil in Hin|].
  intros acc s. simpl. unfold bind.
  destruct (body y acc s) as [s1 [acc1|e]] eqn:Hy; [|eauto].
  apply elem_of_cons in Hin as [->|Hin].
  - destruct (Hx acc s) as (s' & e & He). congruence.
  - by apply IH.
Qed.

(** ** Services discovery *)

Lemma lacks_label_get mf :
  lacks_label mf ->
  exists e, mf_get mf MANIFEST_MAIN_SECTION "label" = Raise e
            /\ (exn_class_of e = NoSectionError \/ exn_class_of e = NoOptionError).
Proof.
  unfold mf_get. intros [Hs|(d & Hs & Hd & Hdef)]; rewrite Hs.
  - eexists; split; [done|by left].
  - assert ((d ∪ parser_defaults mf) !! "label" = None) as ->.
    { unfold parser_defaults. rewrite !lookup_union_None. done. }
    eexists; split; [done|by right].
Qed.

Section Discovery.
Context (w : world) (self : AppServer) (home : string).



Lemma discover_one_discarded n listing services lg :
  os_listdir w (path_join home n) = Return listing ->
  has_markers listing = false ->
  discover_one w self home n services lg
  = (lg ++ [analysing home n;
            mkLog INFO "*** expected files not found => discarded" [] false],
     Return services).
Proof.
  intros Hl Hm. unfold discover_one, bind, lift, log_call, modify, ret.
  rewrite Hl, Hm. simpl. by rewrite <- app_assoc.
Qed.

Lemma discover_one_manifest_error n mf e services lg :
  candidate w home n mf ->
  mf_get mf MANIFEST_MAIN_SECTION "label" = Raise e ->
  discover_one w self home n services lg = (lg ++ [analysing home n; valid_location], Raise e).
Proof.
  intros (listing & Hl & Hm & Hr) Hg.
  unfold discover_one, bind, lift, log_call, modify, ret.
  rewrite Hl, Hm, Hr, Hg. simpl. by rewrite <- app_assoc.
Qed.

Lemma discover_one_load n mf label mapping_attr services lg :
  candidate w home n mf ->
  mf_get mf MANIFEST_MAIN_SECTION "label" = Return label ->
  mf_get mf MANIFEST_MAIN_SECTION "mapping" = Return mapping_attr ->
  discover_one w self home n services lg
  = load_service_guarded w self mf n label mapping_attr
      (SERVICES_PACKAGE_NAME +:+ "." +:+ n) services
      (lg ++ [analysing home n; valid_location; loading n]).
Proof.
  intros (listing & Hl & Hm & Hr) Hg1 Hg2.
  unfold discover_one, bind, lift, log_call, modify, ret.
  rewrite Hl, Hm, Hr, Hg1, Hg2. simpl. by rewrite <- !app_assoc.
Qed.

(** What the [try] block returns when it returns: the services with one
    descriptor more, named after the directory. *)
Lemma load_service_Return mf n label mapping_attr module_name services lg lg' r :
  load_service w self mf n label mapping_attr module_name services lg = (lg', Return r) ->
  exists handlers, r = services ++ [mkServiceDescriptor n label handlers].
Proof.
  unfold load_service. intros H.
  apply bind_inv_Return in H as (module & lg1 & _ & H).
  apply bind_inv_Return in H as (? & lg2 & _ & H).
  apply bind_inv_Return in H as (mapping & lg3 & _ & H).
  apply bind_inv_Return in H as (rules & lg4 & _ & H).
  apply bind_inv_Return in H as (handlers & lg5 & _ & H).
  apply bind_inv_Return in H as (? & lg6 & _ & H).
  unfold ret in H. injection H as _ <-. eauto.
Qed.

Lemma load_service_guarded_Return mf n label mapping_attr module_name services lg lg' r :
  load_service_guarded w self mf n label mapping_attr module_name services lg
    = (lg', Return r) ->
  r = services \/ exists handlers, r = services ++ [mkServiceDescriptor n label handlers].
Proof.
  unfold load_service_guarded, try_except.
  destruct (load_service _ _ _ _ _ _ _ _ _) as [lg1 [r1|e]] eqn:Hload.
  - intros [= _ <-]. right. by eapply load_service_Return.
  - destruct (is_Import_or_Attribute e || is_Exception e)%bool; [|discriminate].
    destruct (is_Import_or_Attribute e).
    + unfold bind, log_exception, modify, raise. simpl. discriminate.
    + unfold bind, log_exception, log_call, modify, ret. simpl.
      intros [= _ <-]. by left.
Qed.

(** One iteration either leaves the list as it is or appends one
    descriptor, for a directory with both marker files. *)
Lemma discover_one_Return n services lg lg' r :
  discover_one w self home n services lg = (lg', Return r) ->
  r = services
  \/ exists label handlers listing,
       r = services ++ [mkServiceDescriptor n label handlers]
       /\ os_listdir w (path_join home n) = Return listing
       /\ has_markers listing = true.
Proof.
  unfold discover_one. intros H.
  apply bind_inv_Return in H as (? & lg1 & _ & H).
  apply bind_inv_Return in H as (listing & lg2 & Hl & H).
  apply lift_inv_Return in Hl as [Hl ->].
  destruct (has_markers listing) eqn:Hm; simpl in H.
  - apply bind_inv_Return in H as (? & lg3 & _ & H).
    apply bind_inv_Return in H as (mf & lg4 & _ & H).
    apply bind_inv_Return in H as (label & lg5 & _ & H).
    apply bind_inv_Return in H as (mapping_attr & lg6 & _ & H).
    apply bind_inv_Return in H as (? & lg7 & _ & H).
    apply load_service_guarded_Return in H as [->|(handlers & ->)]; [by left|].
    right. by exists label, handlers, listing.
  - apply bind_inv_Return in H as (? & lg3 & _ & H).
    unfold ret in H. injection H as _ <-. by left.
Qed.

Lemma has_markers_spec listing :
  has_markers listing = true <->
  MANIFEST_FILE_NAME ∈ listing /\ "__init__.py" ∈ listing.
Proof.
  unfold has_markers, marker_files. simpl.
  rewrite andb_true_r, andb_true_iff, !bool_decide_eq_true. done.
Qed.

(** The loop only appends, in the order of the names it goes through,
    descriptors of directories with both marker files. *)
Lemma for_each_discover_Return names acc lg lg' r :
  for_each (discover_one w self home) names acc lg = (lg', Return r) ->
  exists added,
    r = acc ++ added
    /\ map sd_name added `sublist_of` names
    /\ Forall (fun d => exists listing,
                 os_listdir w (path_join home (sd_name d)) = Return listing
                 /\ has_markers listing = true) added.
Proof.
  revert acc lg. induction names as [|n names IH]; intros acc lg H.
  - unfold for_each, ret in H. injection H as _ <-.
    exists []. rewrite app_nil_r. repeat split; constructor.
  - simpl in H. apply bind_inv_Return in H as (acc1 & lg1 & Hstep & H).
    apply IH in H as (added & -> & Hsub & Hall).
    apply discover_one_Return in Hstep
      as [->|(label & handlers & listing & -> & Hl & Hm)].
    + exists added. repeat split; [by constructor|done].
    + exists (mkServiceDescriptor n label handlers :: added).
      rewrite <- app_assoc. repeat split; [by constructor|].
      constructor; [by exists listing|done].
Qed.

Lemma expand_rules_raise svc (rules : list rule) :
  (exists r, r ∈ rules /\
     re_compile w (effective_url (_app_url_base self) svc (rule_pattern r)) <> None) ->
  forall acc lg, exists url msg,
    re_compile w url = Some msg
    /\ for_each (expand_rule w (_app_url_base self) svc) rules acc lg
       = (lg, Raise (invalid_route url msg)).
Proof.
  intros (r & Hin & Hbad). induction rules as [|r0 rules IH]; [by apply elem_of_nil in Hin|].
  intros acc lg. simpl. unfold bind, expand_rule at 1.
  destruct (re_compile w (effective_url (_app_url_base self) svc (rule_pattern r0)))
    as [msg|] eqn:Hre.
  - exists (effective_url (_app_url_base self) svc (rule_pattern r0)), msg. done.
  - unfold ret. apply elem_of_cons in Hin as [->|Hin]; [congruence|]. by apply IH.
Qed.



Lemma discover_one_bad_route n mf label mapping_attr rules services lg :
  candidate w home n mf ->
  mf_get mf MANIFEST_MAIN_SECTION "label" = Return label ->
  mf_get mf MANIFEST_MAIN_SECTION "mapping" = Return mapping_attr ->
  loads_routes w mf n mapping_attr rules ->
  (exists r, r ∈ rules /\
     re_compile w (effective_url (_app_url_base self) n (rule_pattern r)) <> None) ->
  exists lg1 url msg,
    re_compile w url = Some msg
    /\ discover_one w self home n services lg
       = (lg1 ++ [mkLog ERROR (exn_str (invalid_route url msg)) [] true; could_not_load n],
          Return services).
Proof.
  intros Hc Hl Hm (module & Himp & Hinit & Hattr) Hbad.
  rewrite (discover_one_load _ _ _ _ _ _ Hc Hl Hm).
  unfold load_service_guarded, try_except, load_service.
  unfold bind at 1, lift at 1. rewrite Himp.
  unfold bind at 1.
  destruct (Hinit (lg ++ [analysing home n; valid_location; loading n])) as [lg2 ->].
  unfold bind at 1, lift at 1, getattr. rewrite Hattr.
  unfold bind at 1, lift at 1, iter_rules.
  unfold bind at 1.
  destruct (expand_rules_raise n rules Hbad [] lg2) as (url & msg & Hre & ->).
  exists lg2, url, msg. split; [done|]. simpl.
  unfold bind, log_exception, log_call, modify, ret. simpl.
  by rewrite <- app_assoc.
Qed.
End Discovery.

Lemma StronglySorted_sublist {A} (R : relation A) (l k : list A) :
  l `sublist_of` k -> StronglySorted R k -> StronglySorted R l.
Proof.
  induction 1 as [|x l k Hsub IH|x l k Hsub IH]; intros Hk.
  - constructor.
  - apply StronglySorted_inv in Hk as [Hk Hx]. constructor; [by apply IH|].
    apply Forall_forall. intros y Hy.
    eapply Forall_forall in Hx; [done|]. by eapply elem_of_sublist.
  - apply StronglySorted_inv in Hk as [Hk _]. by apply IH.
Qed.

Lemma elem_of_service_dirs w home entries n :
  n ∈ service_dirs w home entries <-> scanned w home entries n.
Proof.
  unfold service_dirs, scanned. rewrite merge_sort_Permutation, list_elem_of_filter.
  rewrite Is_true_true. tauto.
Qed.

Lemma discover_services_unfold w self home_arg lg entries :
  os_listdir w (resolve_home self home_arg) = Return entries ->
  _discover_services w self home_arg lg
  = for_each (discover_one w self (resolve_home self home_arg))
      (service_dirs w (resolve_home self home_arg) entries) []
      (lg ++ [mkLog DEBUG
                ("discovering services stored in " +:+ resolve_home self home_arg)
                [] false]).
Proof.
  intros H. unfold _discover_services, bind, lift, log_call, modify. by rewrite H.
Qed.

(** C8: when discovery returns, the names of the descriptors form a
    sub-sequence of the sorted names of the sub-directories of the home,
    so they are in ascending order, and each descriptor stands for a
    sub-directory whose listing holds both [MANIFEST] and
    [__init__.py]. *)
Theorem discovered_services_sorted_and_marked
    (w : world) (self : AppServer) (home_arg : option string)
    (lg lg' : logger) (services : list ServiceDescriptor) :
  _discover_services w self home_arg lg = (lg', Return services) ->
  exists entries,
    os_listdir w (resolve_home self home_arg) = Return entries
    /\ map sd_name services
         `sublist_of` service_dirs w (resolve_home self home_arg) entries
    /\ StronglySorted String.le (map sd_name services)
    /\ Forall (fun d =>
         scanned w (resolve_home self home_arg) entries (sd_name d)
         /\ exists listing,
              os_listdir w (path_join (resolve_home self home_arg) (sd_name d))
                = Return listing
              /\ MANIFEST_FILE_NAME ∈ listing /\ "__init__.py" ∈ listing) services.
Proof.
  intros H.
  destruct (os_listdir w (resolve_home self home_arg)) as [entries|e] eqn:Hl.
  2:{ unfold _discover_services, bind, lift, log_call, modify in H.
      rewrite Hl in H. simpl in H. discriminate. }
  rewrite (discover_services_unfold _ _ _ _ _ Hl) in H.
  apply for_each_discover_Return in H as (added & -> & Hsub & Hall).
  simpl. exists entries. repeat split; [done| |].
  - eapply StronglySorted_sublist; [done|].
    apply (StronglySorted_merge_sort String.le).
  - apply Forall_forall. intros d Hd. split.
    + apply elem_of_service_dirs. eapply elem_of_sublist; [|done].
      apply list_elem_of_fmap. by exists d.
    + eapply Forall_forall in Hall as (listing & Hls & Hm); [|done].
      exists listing. split; [done|]. by apply has_markers_spec.
Qed.

Lemma discovered_services_sorted_and_marked_witness :
  exists entries,
    os_listdir plain_world (resolve_home example_server None) = Return entries
    /\ map sd_name
         (returned (snd (_discover_services plain_world example_server None [])) [])
         `sublist_of` service_dirs plain_world (resolve_home example_server None) entries
    /\ StronglySorted String.le
         (map sd_name
            (returned (snd (_discover_services plain_world example_server None [])) []))
    /\ Forall (fun d =>
         scanned plain_world (resolve_home example_server None) entries (sd_name d)
         /\ exists listing,
              os_listdir plain_world
                (path_join (resolve_home example_server None) (sd_name d))
                = Return listing
              /\ MANIFEST_FILE_NAME ∈ listing /\ "__init__.py" ∈ listing)
         (returned (snd (_discover_services plain_world example_server None [])) []).
Proof.
  apply (discovered_services_sorted_and_marked plain_world example_server None []
           (fst (_discover_services plain_world example_server None []))).
  vm_compute. reflexivity.
Defined.

(** The example home gives the two services, [_diags] before [hello]. *)
Example discovery_of_plain_world :
  map sd_name (returned (snd (_discover_services plain_world example_server None [])) [])
  = ["_diags"; "hello"].
Proof. vm_compute. reflexivity. Qed.

(** C1 (as the code has it): the manifest is read before the [try]
    block. A directory that passes the marker check and whose manifest
    lacks the [[service]] section or the [label] option makes its
    iteration raise [NoSectionError] or [NoOptionError] after the two
    information lines of the directory, with nothing logged about the
    failure; the loop stops there, and the discovery call as a whole
    raises instead of returning a list. *)
Theorem manifest_without_label_aborts_discovery
    (w : world) (self : AppServer) (home_arg : option string)
    (entries : list string) (n : string) (mf : config_file) :
  os_listdir w (resolve_home self home_arg) = Return entries ->
  scanned w (resolve_home self home_arg) entries n ->
  candidate w (resolve_home self home_arg) n mf ->
  lacks_label mf ->
  (forall lg, exists lg' e, _discover_services w self home_arg lg = (lg', Raise e))
  /\ exists e,
       (exn_class_of e = NoSectionError \/ exn_class_of e = NoOptionError)
       /\ forall services lg rest,
            discover_one w self (resolve_home self home_arg) n services lg
              = (lg ++ [analysing (resolve_home self home_arg) n; valid_location], Raise e)
            /\ for_each (discover_one w self (resolve_home self home_arg))
                 (n :: rest) services lg
              = (lg ++ [analysing (resolve_home self home_arg) n; valid_location], Raise e).
Proof.
  intros Hl Hscan Hc Hlack.
  destruct (lacks_label_get mf Hlack) as (e & Hget & Hcls).
  assert (forall services lg,
            discover_one w self (resolve_home self home_arg) n services lg
            = (lg ++ [analysing (resolve_home self home_arg) n; valid_location], Raise e))
    as Hone by (intros; by apply discover_one_manifest_error with mf).
  split.
  - intros lg. rewrite (discover_services_unfold _ _ _ _ _ Hl).
    apply for_each_raises with n; [by apply elem_of_service_dirs|].
    intros acc s. rewrite Hone. eauto.
  - exists e. split; [done|]. intros services lg rest. split; [done|].
    by apply for_each_cons_Raise.
Qed.

Lemma manifest_without_label_aborts_discovery_witness :
  (forall lg, exists lg' e,
      _discover_services missing_label_world example_server None lg = (lg', Raise e))
  /\ exists e,
       (exn_class_of e = NoSectionError \/ exn_class_of e = NoOptionError)
       /\ forall services lg rest,
            discover_one missing_label_world example_server
              (resolve_home example_server None) "beta" services lg
              = (lg ++ [analysing (resolve_home example_server None) "beta";
                        valid_location], Raise e)
            /\ for_each (discover_one missing_label_world example_server
                           (resolve_home example_server None))
                 ("beta" :: rest) services lg
              = (lg ++ [analysing (resolve_home example_server None) "beta";
                        valid_location], Raise e).
Proof.
  apply (manifest_without_label_aborts_discovery missing_label_world example_server None
           ["zeta"; "beta"; "alpha"] "beta"
           (mkConfig ∅ {[ MANIFEST_MAIN_SECTION := ∅ ]})).
  - reflexivity.
  - split; [|reflexivity]. by apply (bool_decide_unpack _).
  - exists package_files. repeat split; reflexivity.
  - right. exists ∅. repeat split; reflexivity.
Defined.

(** C1 (as stated) fails: with two well-formed services and one whose
    manifest has no [label], discovery does not return the two
    descriptors; it raises the [NoOptionError] of the manifest, and logs
    no error. *)
Lemma missing_label_is_not_skipped :
  snd (_discover_services missing_label_world example_server None [])
    = Raise (no_option_error "label" MANIFEST_MAIN_SECTION)
  /\ Forall (fun r => lr_level r <> ERROR)
       (fst (_discover_services missing_label_world example_server None []))
  /\ ~ exists lg' services,
         _discover_services missing_label_world example_server None []
           = (lg', Return services).
Proof.
  split; [vm_compute; reflexivity|]. split.
  - vm_compute. repeat constructor; discriminate.
  - intros (lg' & services & H). vm_compute in H. discriminate.
Qed.




(** The import that cannot find the package stops discovery. *)
Example missing_module_aborts_discovery :
  snd (_discover_services missing_module_world example_server None [])
  = Raise (import_error "beta").
Proof. vm_compute. reflexivity. Qed.

(** A module without the attribute the manifest names: the
    [AttributeError] goes out of the discovery call. *)
Example missing_attribute_aborts_discovery :
  snd (_discover_services
         (world_of example_home
            [good_plugin "alpha" "Alpha" diags_rules;
             mkPluginDir "beta" package_files
               (Return (mkConfig ∅ {[ MANIFEST_MAIN_SECTION :=
                                        {[ "label" := "Beta"; "mapping" := "routes" ]} ]}))
               (Return {[ "handlers" := ORoutes hello_rules ]})] [])
         example_server None [])
  = Raise (simple_exn AttributeError "'module' object has no attribute 'routes'").
Proof. vm_compute. reflexivity. Qed.

(** C3: for a directory that passes the marker check, whose manifest
    gives a label and a mapping key and whose module is imported and
    initialised, when one pattern of the route table does not compile
    once namespaced, the iteration returns the list of services it was
    given (no descriptor for the directory, whatever routes came before
    the bad one), the log ends with the exception that names the pattern
    and the "Could not load service" error, and the loop goes on with the
    directories that follow. *)
Theorem invalid_route_skips_service
    (w : world) (self : AppServer) (home : string)
    (n : string) (mf : config_file) (label mapping_attr : string) (rules : list rule) :
  candidate w home n mf ->
  mf_get mf MANIFEST_MAIN_SECTION "label" = Return label ->
  mf_get mf MANIFEST_MAIN_SECTION "mapping" = Return mapping_attr ->
  loads_routes w mf n mapping_attr rules ->
  (exists r, r ∈ rules /\
     re_compile w (effective_url (_app_url_base self) n (rule_pattern r)) <> None) ->
  forall services lg, exists lg1 url msg,
    let logged :=
      lg1 ++ [mkLog ERROR (exn_str (invalid_route url msg)) [] true; could_not_load n] in
    re_compile w url = Some msg
    /\ discover_one w self home n services lg = (logged, Return services)
    /\ forall rest,
         for_each (discover_one w self home) (n :: rest) services lg
         = for_each (discover_one w self home) rest services logged.
Proof.
  intros Hc Hlabel Hmap Hload Hbad services lg.
  destruct (discover_one_bad_route w self home n mf label mapping_attr rules services lg
              Hc Hlabel Hmap Hload Hbad) as (lg1 & url & msg & Hre & Heq).
  exists lg1, url, msg. simpl. repeat split; [done..|].
  intros rest. by apply for_each_cons_Return.
Qed.

Lemma invalid_route_skips_service_witness :
  exists lg1 url msg,
    let logged :=
      lg1 ++ [mkLog ERROR (exn_str (invalid_route url msg)) [] true;
              could_not_load "beta"] in
    re_compile bad_route_world url = Some msg
    /\ discover_one bad_route_world example_server example_home "beta" [] []
       = (logged, Return [])
    /\ forall rest,
         for_each (discover_one bad_route_world example_server example_home)
           ("beta" :: rest) [] []
         = for_each (discover_one bad_route_world example_server example_home)
             rest [] logged.
Proof.
  refine (invalid_route_skips_service bad_route_world example_server example_home
            "beta" (manifest_with_label "Beta") "Beta" "handlers"
            [mkRule "/ok" [IClass "OkHandler"]; mkRule "/item/(\d+" [IClass "ItemHandler"]]
            _ _ _ _ _ [] []).
  - exists package_files. repeat split; reflexivity.
  - reflexivity.
  - reflexivity.
  - eexists. split; [reflexivity|]. split; [|reflexivity].
    intros lg. eexists. reflexivity.
  - exists (mkRule "/item/(\d+" [IClass "ItemHandler"]). split.
    + apply list_elem_of_In. simpl. auto.
    + vm_compute. discriminate.
Defined.

(** The example with a bad route: the two other services are
    discovered, the one with the bad route is not. *)
Example discovery_of_bad_route_world :
  map sd_name (returned (snd (_discover_services bad_route_world example_server None [])) [])
  = ["alpha"; "zeta"].
Proof. vm_compute. reflexivity. Qed.

(** ** Request handlers *)

(** C5 (as the code has it): the fallback table holds the single rule
    [("/.*", InvalidRequest)]. On a fresh handler of that class a GET
    ends with status 404 and an empty body, and so does a POST, whose
    method calls the GET one; [InvalidRequest] overrides neither
    [do_delete] nor [do_put], so a DELETE or a PUT runs the inherited
    method and ends with status 501 and the "not yet implemented"
    body. *)
Theorem fallback_replies (args : list string) (lg : option logger) :
  p_lists fresh_process !! fallback_handlers
    = Some [mkRule "/.*" [IClass (cls_name InvalidRequest)]]
  /\ execute InvalidRequest GET args (new_handler lg)
     = (mkHandler 404 [] [] true true lg, Return tt)
  /\ execute InvalidRequest POST args (new_handler lg)
     = (mkHandler 404 [] [] true true lg, Return tt)
  /\ resolve InvalidRequest POST args = resolve InvalidRequest GET []
  /\ resolve InvalidRequest DELETE = WSHandler_do DELETE
  /\ resolve InvalidRequest PUT = WSHandler_do PUT
  /\ execute InvalidRequest DELETE args (new_handler lg)
     = (mkHandler 501 [] [{[ "message" := JStr "not yet implemented" ]}] true true lg,
        Return tt)
  /\ execute InvalidRequest PUT args (new_handler lg)
     = (mkHandler 501 [] [{[ "message" := JStr "not yet implemented" ]}] true true lg,
        Return tt).
Proof. repeat split; reflexivity. Qed.

(** C5 (as stated) fails: a DELETE on the fallback handler does not end
    with status 404 but with 501. *)
Lemma fallback_delete_is_not_404 :
  h_status (fst (handle InvalidRequest DELETE [] (new_handler None))) = 501
  /\ h_status (fst (execute InvalidRequest DELETE [] (new_handler None))) <> 404.
Proof. split; [reflexivity|]. vm_compute. discriminate. Qed.

(** The logging calls change nothing but the logger. *)
Lemma h_log_response r h :
  exists lg', h_log r h
    = (mkHandler (h_status h) (h_write_buffer h) (h_sent h) (h_headers_written h)
         (h_finished h) lg', Return tt).
Proof.
  unfold h_log, modify. destruct h as [st wb sent hw fin [lg|]]; simpl; eauto.
Qed.




(** An explicit [HTTPError(404, "no such item")] raised by a handler
    with a logger: status 404 and the message alone. *)
Example http_error_reply :
  run_method (raise (mkExn HTTPError "HTTP 404: Not Found (no such item)" None 404
                       (Some "no such item")))
    (new_handler (Some []))
  = (mkHandler 404 [] [{[ "message" := JStr "no such item" ]}] true true
       (Some [mkLog ERROR "HTTP 404: Not Found (no such item)" [] true]),
     Return tt).
Proof. reflexivity. Qed.

(** An error carrying a [reason]: the envelope shows it as
    [additInfos]. *)
Example unexpected_error_reply :
  run_method (raise (mkExn (UserError "URLError") "unreachable" (Some "timed out") 500 None))
    (new_handler None)
  = (mkHandler 500 []
       [{[ "errtype" := JStr "URLError"; "message" := JStr "unreachable";
           "additInfos" := JStr "timed out" ]}] true true None,
     Return tt).
Proof. reflexivity. Qed.

(** ** Request logging *)

(** What one call of [_log_request] does, in terms of the mute list it
    finds. *)
Lemma log_request_step (c : completed) (p : process) :
  _log_request c p
  = (mkProcess (p_lists p) (p_servers p)
       (p_log p ++
          (if c_status c <? 400 then
             if bool_decide (c_uri c ∈ _muted_requests p) then []
             else if default false (c_disable_request_logging c)
                  then [muted_warning (c_uri c); summary_record INFO c]
                  else [summary_record INFO c]
           else if c_status c <? 500 then [summary_record WARNING c]
                else [summary_record ERROR c]))
       (if (c_status c <? 400) && negb (bool_decide (c_uri c ∈ _muted_requests p))
           && default false (c_disable_request_logging c)
        then _muted_requests p ++ [c_uri c] else _muted_requests p),
     Return tt).
Proof.
  unfold _log_request. destruct p as [lists servers lg muted]. simpl.
  destruct (c_status c <? 400); simpl.
  - unfold bind, get_state. simpl.
    destruct (bool_decide (c_uri c ∈ muted)); simpl.
    + unfold ret. by rewrite app_nil_r.
    + destruct (default false (c_disable_request_logging c)); simpl.
      * unfold mute, log_summary, with_log, log_call, modify, summary_record,
          muted_warning. simpl. by rewrite <- app_assoc.
      * reflexivity.
  - destruct (c_status c <? 500); reflexivity.
Qed.

(** The mute list after a sequence of requests: what was there, and the
    URIs of the successful requests of flagged handlers. *)
Lemma muted_after_requests (cs : list completed) (p : process) :
  exists p', run_requests cs p = (p', Return tt)
    /\ forall key, key ∈ _muted_requests p' <-> key ∈ _muted_requests p \/ existsb (mutes key) cs = true.
Proof.
  revert p. induction cs as [|c cs IH]; intros p.
  - exists p. split; [done|]. intros key. simpl. split; [auto|]. by intros [?|?].
  - unfold run_requests. simpl. unfold bind at 1. rewrite log_request_step.
    match goal with |- context [for_each _ cs tt ?q] =>
      destruct (IH q) as (p' & Hrun & Hmuted) end.
    exists p'. split; [exact Hrun|]. intros key. rewrite Hmuted. simpl.
    rewrite orb_true_iff. generalize (existsb (mutes key) cs). intros ex.
    unfold mutes.
    destruct (c_status c <? 400); simpl.
    2:{ rewrite andb_false_r. simpl. split; [intros [?|?]; auto|]. intros [?|[?|?]]; auto. done. }
    destruct (default false (c_disable_request_logging c)); simpl.
    2:{ rewrite !andb_false_r. split; [intros [?|?]; auto|]. intros [?|[?|?]]; auto. done. }
    rewrite !andb_true_r.
    destruct (bool_decide_reflect (c_uri c ∈ _muted_requests p)) as [Hin|Hnin]; simpl.
    + split; [intros [?|?]; auto|]. intros [?|[Heq%String.eqb_eq|?]]; subst; auto.
    + rewrite elem_of_app, list_elem_of_singleton. split.
      * intros [[?| ->]|?]; auto. right. left. apply String.eqb_refl.
      * intros [?|[Heq%String.eqb_eq|?]]; subst; auto.
Qed.

(** C7: in a process whose mute list starts empty, after any sequence
    [pre] of completed requests, the request [c] adds to the log:
    - nothing, when its status is below 400 and an earlier request with
      the same URI and a status below 400 came from a flagged handler;
    - the suppression warning followed by the information line (or the
      information line alone when its handler is not flagged), when its
      status is below 400 and no such earlier request exists;
    - one warning line when its status is from 400 to 499 and one error
      line from 500 on, whatever the mute list holds. *)
Theorem request_logging_with_mute
    (lists : gmap loc (list rule)) (servers : gmap loc AppServer) (lg : logger)
    (pre : list completed) (c : completed) :
  exists p1 p2,
    run_requests pre (mkProcess lists servers lg []) = (p1, Return tt)
    /\ _log_request c p1 = (p2, Return tt)
    /\ run_requests (pre ++ [c]) (mkProcess lists servers lg []) = (p2, Return tt)
    /\ p_log p2
       = p_log p1 ++
           (if c_status c <? 400 then
              if existsb (mutes (c_uri c)) pre then []
              else if default false (c_disable_request_logging c)
                   then [muted_warning (c_uri c); summary_record INFO c]
                   else [summary_record INFO c]
            else if c_status c <? 500 then [summary_record WARNING c]
                 else [summary_record ERROR c]).
Proof.
  destruct (muted_after_requests pre (mkProcess lists servers lg []))
    as (p1 & Hrun & Hmuted).
  exists p1. eexists. split; [exact Hrun|]. split; [apply log_request_step|]. split.
  - unfold run_requests in *. revert Hrun.
    generalize (mkProcess lists servers lg []). clear Hmuted.
    induction pre as [|c0 pre IH]; intros p0 Hrun; simpl in *.
    + unfold ret in Hrun. injection Hrun as ->. unfold bind.
      rewrite log_request_step. reflexivity.
    + unfold bind at 1. unfold bind at 1 in Hrun.
      rewrite log_request_step in *. by apply IH.
  - simpl. f_equal.
    destruct (c_status c <? 400); [|done].
    assert (bool_decide (c_uri c ∈ _muted_requests p1) = existsb (mutes (c_uri c)) pre) as ->; [|done].
    destruct (existsb (mutes (c_uri c)) pre) eqn:Hex.
    + apply bool_decide_eq_true. apply Hmuted. by right.
    + apply bool_decide_eq_false. rewrite Hmuted. simpl.
      intros [Hin|?]; [by apply elem_of_nil in Hin|congruence].
Qed.

(** A polling handler flagged as muted: logged once with the warning,
    silent afterwards, logged again as soon as it fails. *)
Example muted_polling :
  p_log (fst (run_requests
                [mkCompleted 200 "/api/notif/check" (Some true) "GET /api/notif/check" 12;
                 mkCompleted 200 "/api/notif/check" (Some true) "GET /api/notif/check" 9;
                 mkCompleted 503 "/api/notif/check" (Some true) "GET /api/notif/check" 30;
                 mkCompleted 200 "/api/notif/check" (Some true) "GET /api/notif/check" 8]
                fresh_process))
  = [muted_warning "/api/notif/check";
     mkLog INFO "%d %s %.2fms" [AInt 200; AStr "GET /api/notif/check"; AMillis 12] false;
     mkLog ERROR "%d %s %.2fms" [AInt 503; AStr "GET /api/notif/check"; AMillis 30] false].
Proof. vm_compute. reflexivity. Qed.

(** ** Route table assembly *)

Lemma list_extend_known (l : loc) (xs old : list rule) (p : process) :
  p_lists p !! l = Some old ->
  list_extend l xs p
  = (mkProcess (<[l := old ++ xs]> (p_lists p)) (p_servers p) (p_log p) (_muted_requests p),
     Return tt).
Proof.
  intros H. unfold list_extend, modify. do 2 f_equal.
  rewrite <- (insert_id (p_lists p) l old H) at 1.
  by rewrite alter_insert_eq.
Qed.

Lemma extend_with_services (l : loc) (services : list ServiceDescriptor) :
  forall (old : list rule) (p : process),
    p_lists p !! l = Some old ->
    for_each (fun service (_ : unit) => list_extend l (sd_handlers service)) services tt p
    = (mkProcess (<[l := old ++ concat (map sd_handlers services)]> (p_lists p))
         (p_servers p) (p_log p) (_muted_requests p),
       Return tt).
Proof.
  induction services as [|sd services IH]; intros old p H.
  - simpl. unfold ret. rewrite app_nil_r, (insert_id _ _ _ H). by destruct p.
  - simpl. unfold bind at 1. rewrite (list_extend_known _ _ _ _ H).
    rewrite (IH (old ++ sd_handlers sd)); [|apply lookup_insert_eq].
    simpl. by rewrite insert_insert_eq, <- app_assoc.
Qed.

Lemma setup_handlers_known (self : loc) (services : list ServiceDescriptor)
    (p : process) (old fallback : list rule) :
  p_lists p !! toplevel_handlers = Some old ->
  p_lists p !! fallback_handlers = Some fallback ->
  _setup_handlers self services p
  = (mkProcess
       (<[toplevel_handlers := old ++ concat (map sd_handlers services) ++ fallback]>
          (p_lists p))
       (p_servers p) (p_log p) (_muted_requests p),
     Return toplevel_handlers).
Proof.
  intros Htop Hfb. unfold _setup_handlers. unfold bind at 1.
  rewrite (extend_with_services _ _ _ _ Htop).
  unfold bind at 1, read_list. simpl.
  rewrite lookup_insert_ne by done. rewrite Hfb. simpl.
  unfold bind. erewrite list_extend_known by apply lookup_insert_eq.
  simpl. unfold ret. by rewrite insert_insert_eq, <- app_assoc.
Qed.

(** C10: [_setup_handlers] returns the reference of the class-level
    [toplevel_handlers] list, whichever instance it is called on, after
    growing that list in place by the rules of every service and the
    fallback rules; nothing else in the store changes. The same assembly
    asked again, by this instance or another, returns the same reference
    and the list then holds the service and fallback rules twice. *)
Theorem setup_handlers_extends_class_list
    (self self' : loc) (services : list ServiceDescriptor)
    (p : process) (old fallback : list rule) :
  p_lists p !! toplevel_handlers = Some old ->
  p_lists p !! fallback_handlers = Some fallback ->
  exists p1 p2,
    _setup_handlers self services p = (p1, Return toplevel_handlers)
    /\ p_lists p1
       = <[toplevel_handlers := old ++ concat (map sd_handlers services) ++ fallback]>
           (p_lists p)
    /\ p_servers p1 = p_servers p /\ p_log p1 = p_log p /\ _muted_requests p1 = _muted_requests p
    /\ _setup_handlers self' services p1 = (p2, Return toplevel_handlers)
    /\ p_lists p2
       = <[toplevel_handlers :=
             old ++ (concat (map sd_handlers services) ++ fallback)
                 ++ (concat (map sd_handlers services) ++ fallback)]>
           (p_lists p)
    /\ p_lists p2 !! fallback_handlers = Some fallback.
Proof.
  intros Htop Hfb. eexists. eexists.
  split; [by apply setup_handlers_known|]. simpl.
  repeat split.
  - erewrite setup_handlers_known;
      [reflexivity|simpl; apply lookup_insert_eq|simpl; by rewrite lookup_insert_ne].
  - simpl. by rewrite insert_insert_eq, <- !app_assoc.
  - simpl. by rewrite !lookup_insert_ne.
Qed.

Lemma setup_handlers_extends_class_list_witness :
  exists p1 p2,
    _setup_handlers example_self
      [mkServiceDescriptor "hello" "Hello" [mkRule "/api/hello/say" [IClass "SayHelloHandler"]]]
      fresh_process = (p1, Return toplevel_handlers)
    /\ p_lists p1
       = <[toplevel_handlers :=
             [] ++ concat (map sd_handlers
                     [mkServiceDescriptor "hello" "Hello"
                        [mkRule "/api/hello/say" [IClass "SayHelloHandler"]]])
                ++ [mkRule "/.*" [IClass (cls_name InvalidRequest)]]]>
           (p_lists fresh_process)
    /\ p_servers p1 = p_servers fresh_process /\ p_log p1 = p_log fresh_process
    /\ _muted_requests p1 = _muted_requests fresh_process
    /\ _setup_handlers 11%positive
         [mkServiceDescriptor "hello" "Hello" [mkRule "/api/hello/say" [IClass "SayHelloHandler"]]]
         p1 = (p2, Return toplevel_handlers)
    /\ p_lists p2
       = <[toplevel_handlers :=
             [] ++ (concat (map sd_handlers
                      [mkServiceDescriptor "hello" "Hello"
                         [mkRule "/api/hello/say" [IClass "SayHelloHandler"]]])
                    ++ [mkRule "/.*" [IClass (cls_name InvalidRequest)]])
                ++ (concat (map sd_handlers
                      [mkServiceDescriptor "hello" "Hello"
                         [mkRule "/api/hello/say" [IClass "SayHelloHandler"]]])
                    ++ [mkRule "/.*" [IClass (cls_name InvalidRequest)]])]>
           (p_lists fresh_process)
    /\ p_lists p2 !! fallback_handlers = Some [mkRule "/.*" [IClass (cls_name InvalidRequest)]].
Proof.
  apply (setup_handlers_extends_class_list example_self 11%positive
           [mkServiceDescriptor "hello" "Hello" [mkRule "/api/hello/say" [IClass "SayHelloHandler"]]]
           fresh_process [] [mkRule "/.*" [IClass (cls_name InvalidRequest)]]);
    reflexivity.
Defined.

(** Two assemblies in a row: the table has the service rule and the
    fallback rule twice. *)
Example setup_handlers_twice :
  default []
    (p_lists
       (fst (_setup_handlers example_self
               [mkServiceDescriptor "hello" "Hello"
                  [mkRule "/api/hello/say" [IClass "SayHelloHandler"]]]
               (fst (_setup_handlers example_self
                       [mkServiceDescriptor "hello" "Hello"
                          [mkRule "/api/hello/say" [IClass "SayHelloHandler"]]]
                       fresh_process))))
     !! toplevel_handlers)
  = [mkRule "/api/hello/say" [IClass "SayHelloHandler"];
     mkRule "/.*" [IClass "InvalidRequest"];
     mkRule "/api/hello/say" [IClass "SayHelloHandler"];
     mkRule "/.*" [IClass "InvalidRequest"]].
Proof. vm_compute. reflexivity. Qed.

(** ** Server start *)

Lemma start_refused (w : world) (loop : M process unit) (self : loc)
    (p : process) (l : loc) :
  _ioloop (server_at p self) = Some l ->
  start w loop self p = (p, Raise already_started).
Proof.
  intros H. unfold start, bind, get_server. by rewrite H.
Qed.





(** A [start] attempted from inside the running loop is refused. *)
Example start_from_inside_the_loop :
  snd (start plain_world
         (try_except (start plain_world (ret tt) example_self)
            (fun e => match exn_class_of e with RuntimeError => true | _ => false end)
            (fun e => p_info "refused: %s" [AStr (exn_str e)]))
         example_self (process_with example_server)) = Return tt
  /\ mkLog INFO "refused: %s" [AStr "server already started"] false
     ∈ p_log (fst (start plain_world
                     (try_except (start plain_world (ret tt) example_self)
                        (fun e => match exn_class_of e with
                                  | RuntimeError => true | _ => false end)
                        (fun e => p_info "refused: %s" [AStr (exn_str e)]))
                     example_self (process_with example_server))).
Proof.
  split; [vm_compute; reflexivity|].
  apply list_elem_of_In. vm_compute. tauto.
Qed.

(** * Further properties *)

(** ** Request handlers *)

(** X1: a verb that a handler class does not override is answered, on a
    fresh handler, with status 501 and the body
    [{"message": "not yet implemented"}], whatever the class and the
    arguments. *)
Theorem verb_not_overridden_replies_501
    (c : handler_class) (v : verb) (args : list string) (lg : option logger) :
  override c v = None ->
  execute c v args (new_handler lg) = (not_implemented_reply lg, Return tt).
Proof.
  intros H. unfold execute, resolve. fold (override c v). rewrite H.
  reflexivity.
Qed.

Lemma verb_not_overridden_replies_501_witness :
  execute (SayHelloHandler (fun _ => None)) GET ["42"] (new_handler (Some []))
  = (not_implemented_reply (Some []), Return tt).
Proof.
  apply (verb_not_overridden_replies_501 (SayHelloHandler (fun _ => None)) GET ["42"]
           (Some [])).
  reflexivity.
Defined.

(** X2: when the verb method returns, [_process_request] never raises:
    it flushes the response (what was written goes out, the headers are
    sent), and if the method had already finished the response the
    failure of the flush is swallowed and the response is left as it
    is. *)
Theorem process_request_flushes (m : M handler unit) (h h1 : handler) :
  m h = (h1, Return tt) ->
  _process_request m h = (if h_finished h1 then h1 else flushed h1, Return tt).
Proof.
  intros H. unfold _process_request. rewrite H.
  unfold try_except, flush. destruct (h_finished h1) eqn:Hfin; simpl.
  - reflexivity.
  - unfold flushed. by rewrite Hfin.
Qed.

Lemma process_request_flushes_witness :
  _process_request (write {[ "message" := JStr "Hello" ]} ;;; finish) (new_handler None)
  = (if h_finished (mkHandler 200 [] [{[ "message" := JStr "Hello" ]}] true true None)
     then mkHandler 200 [] [{[ "message" := JStr "Hello" ]}] true true None
     else flushed (mkHandler 200 [] [{[ "message" := JStr "Hello" ]}] true true None),
     Return tt).
Proof.
  apply (process_request_flushes (write {[ "message" := JStr "Hello" ]} ;;; finish)
           (new_handler None)
           (mkHandler 200 [] [{[ "message" := JStr "Hello" ]}] true true None)).
  reflexivity.
Defined.

(** X3: an exception that is not a subclass of [Exception] (an
    interrupt, a system exit) raised by the verb method goes through
    [_process_request] and the framework wrapper untouched: nothing is
    logged, nothing is written, the status is not changed. *)
Theorem process_request_lets_base_exceptions_through
    (m : M handler unit) (h h1 : handler) (e : exn) :
  m h = (h1, Raise e) ->
  is_Exception e = false ->
  _process_request m h = (h1, Raise e) /\ run_method m h = (h1, Raise e).
Proof.
  intros Hm He.
  assert (_process_request m h = (h1, Raise e)) as Hpr
    by (unfold _process_request; by rewrite Hm, He).
  split; [done|].
  unfold run_method, try_except. unfold bind at 1. by rewrite Hpr, He.
Qed.

Lemma process_request_lets_base_exceptions_through_witness :
  _process_request (set_status 202 ;;; raise (simple_exn KeyboardInterrupt ""))
    (new_handler (Some []))
  = (mkHandler 202 [] [] false false (Some []), Raise (simple_exn KeyboardInterrupt ""))
  /\ run_method (set_status 202 ;;; raise (simple_exn KeyboardInterrupt ""))
       (new_handler (Some []))
     = (mkHandler 202 [] [] false false (Some []), Raise (simple_exn KeyboardInterrupt "")).
Proof.
  apply (process_request_lets_base_exceptions_through
           (set_status 202 ;;; raise (simple_exn KeyboardInterrupt ""))
           (new_handler (Some [])) (mkHandler 202 [] [] false false (Some []))
           (simple_exn KeyboardInterrupt "")); reflexivity.
Defined.

(** X4: on a response that is not finished, [write_error] uses the
    status code it is given only for an [HTTPError]; for any other
    exception the status is 500 whatever code was asked for. Either way
    one dictionary is added to what was written. *)
Theorem write_error_status (status_code : Z) (e : exn) (h : handler) :
  h_finished h = false ->
  exists lg',
    write_error status_code e h
    = (mkHandler (if is_HTTPError e then status_code else 500)
         (h_write_buffer h ++ [if is_HTTPError e then message_body e else error_envelope e])
         (h_sent h) (h_headers_written h) false lg',
       Return tt).
Proof.
  intros Hfin. unfold write_error. destruct (is_HTTPError e).
  - unfold bind, write, set_status, modify. rewrite Hfin. simpl. eauto.
  - unfold exception_reply, bind, h_log, write, set_status, modify. simpl.
    destruct h as [st wb sent hw fin [lg|]]; simpl in *; rewrite Hfin; simpl; eauto.
Qed.

Lemma write_error_status_witness :
  exists lg',
    write_error 503 (simple_exn (UserError "KeyError") "'id'") (new_handler None)
    = (mkHandler
         (if is_HTTPError (simple_exn (UserError "KeyError") "'id'") then 503 else 500)
         (h_write_buffer (new_handler None)
          ++ [if is_HTTPError (simple_exn (UserError "KeyError") "'id'")
              then message_body (simple_exn (UserError "KeyError") "'id'")
              else error_envelope (simple_exn (UserError "KeyError") "'id'")])
         (h_sent (new_handler None)) (h_headers_written (new_handler None)) false lg',
       Return tt).
Proof.
  apply (write_error_status 503 (simple_exn (UserError "KeyError") "'id'")
           (new_handler None)).
  reflexivity.
Defined.

(** X5: [HelloHandler] answers a GET with status 200 and
    [{"message": "Hello <to>"}], [<to>] being the request argument [to]
    or [World] without one, provided a logger was handed to the handler;
    without a logger the debug call fails and the reply is the 500
    envelope of an [AttributeError]. Every other verb gets the 501
    reply. *)
Theorem hello_handler_replies (get_argument : string -> option string)
    (lg : option logger) :
  execute (HelloHandler get_argument) GET [] (new_handler lg)
  = match lg with
    | Some l =>
        (mkHandler 200 []
           [{[ "message" := JStr ("Hello " +:+ default "World" (get_argument "to")) ]}]
           true true
           (Some (l ++ [mkLog DEBUG "saying hello to %s"
                          [AStr (default "World" (get_argument "to"))] false])),
         Return tt)
    | None =>
        (mkHandler 500 []
           [error_envelope
              (simple_exn AttributeError "'NoneType' object has no attribute 'debug'")]
           true true None,
         Return tt)
    end
  /\ execute (HelloHandler get_argument) POST [] (new_handler lg)
     = (not_implemented_reply lg, Return tt)
  /\ execute (HelloHandler get_argument) PUT [] (new_handler lg)
     = (not_implemented_reply lg, Return tt)
  /\ execute (HelloHandler get_argument) DELETE [] (new_handler lg)
     = (not_implemented_reply lg, Return tt).
Proof.
  split; [|repeat split; reflexivity].
  destruct lg as [l|]; reflexivity.
Qed.

(** The greeting of the documentation. *)
Example hello_to_world :
  h_sent (fst (execute (HelloHandler (fun _ => None)) GET [] (new_handler (Some []))))
  = [{[ "message" := JStr "Hello World" ]}].
Proof. reflexivity. Qed.

(** X6: [SayHelloHandler] is the same greeting under POST: with a logger
    the reply is status 200 and [{"message": "Hello <to>"}] with [World]
    as the default, without one it is the 500 envelope of the
    [AttributeError]; a GET, a PUT or a DELETE gets the 501 reply. *)
Theorem say_hello_handler_replies (get_argument : string -> option string)
    (lg : option logger) :
  execute (SayHelloHandler get_argument) POST [] (new_handler lg)
  = match lg with
    | Some l =>
        (mkHandler 200 []
           [{[ "message" := JStr ("Hello " +:+ default "World" (get_argument "to")) ]}]
           true true
           (Some (l ++ [mkLog DEBUG "saying hello to %s"
                          [AStr (default "World" (get_argument "to"))] false])),
         Return tt)
    | None =>
        (mkHandler 500 []
           [error_envelope
              (simple_exn AttributeError "'NoneType' object has no attribute 'debug'")]
           true true None,
         Return tt)
    end
  /\ execute (SayHelloHandler get_argument) GET [] (new_handler lg)
     = (not_implemented_reply lg, Return tt)
  /\ execute (SayHelloHandler get_argument) PUT [] (new_handler lg)
     = (not_implemented_reply lg, Return tt)
  /\ execute (SayHelloHandler get_argument) DELETE [] (new_handler lg)
     = (not_implemented_reply lg, Return tt).
Proof.
  split; [|repeat split; reflexivity].
  destruct lg as [l|]; reflexivity.
Qed.

(** ** Services discovery *)

Lemma expand_rules_Return w base n (rules : list rule) :
  forall acc lg lg' hs,
    for_each (expand_rule w base n) rules acc lg = (lg', Return hs) ->
    lg' = lg
    /\ hs = acc ++ map (namespace_rule base n) rules
    /\ Forall (fun r => re_compile w (effective_url base n (rule_pattern r)) = None) rules.
Proof.
  induction rules as [|r rules IH]; intros acc lg lg' hs H.
  - simpl in H. unfold ret in H. injection H as <- <-. by rewrite app_nil_r.
  - simpl in H. apply bind_inv_Return in H as (acc1 & lg1 & Hr & H).
    unfold expand_rule in Hr.
    destruct (re_compile w (effective_url base n (rule_pattern r))) eqn:Hre;
      [discriminate|].
    unfold ret in Hr. injection Hr as <- <-.
    apply IH in H as (-> & -> & Hall). simpl.
    rewrite <- app_assoc. split; [done|]. split; [done|]. by constructor.
Qed.

Lemma expand_rules_ok w base n (rules : list rule) :
  Forall (fun r => re_compile w (effective_url base n (rule_pattern r)) = None) rules ->
  forall acc lg,
    for_each (expand_rule w base n) rules acc lg
    = (lg, Return (acc ++ map (namespace_rule base n) rules)).
Proof.
  induction 1 as [|r rules Hr Hall IH]; intros acc lg; simpl.
  - unfold ret. by rewrite app_nil_r.
  - unfold bind, expand_rule at 1. rewrite Hr. unfold ret. rewrite IH.
    by rewrite <- app_assoc.
Qed.

Lemma load_service_routes w self mf n label mapping_attr module_name services lg lg' r :
  load_service w self mf n label mapping_attr module_name services lg = (lg', Return r) ->
  exists rules,
    r = services ++ [mkServiceDescriptor n label
                       (map (namespace_rule (_app_url_base self) n) rules)]
    /\ Forall (fun r => re_compile w (effective_url (_app_url_base self) n (rule_pattern r))
                        = None) rules.
Proof.
  unfold load_service. intros H.
  apply bind_inv_Return in H as (module & lg1 & _ & H).
  apply bind_inv_Return in H as (? & lg2 & _ & H).
  apply bind_inv_Return in H as (mapping & lg3 & _ & H).
  apply bind_inv_Return in H as (rules & lg4 & _ & H).
  apply bind_inv_Return in H as (handlers & lg5 & Hexp & H).
  apply bind_inv_Return in H as (? & lg6 & _ & H).
  unfold ret in H. injection H as _ <-.
  apply expand_rules_Return in Hexp as (_ & -> & Hall). by exists rules.
Qed.

Lemma discover_one_routes w self home n services lg lg' r :
  discover_one w self home n services lg = (lg', Return r) ->
  r = services \/ exists d, r = services ++ [d] /\ routes_namespaced w self d.
Proof.
  unfold discover_one. intros H.
  apply bind_inv_Return in H as (? & lg1 & _ & H).
  apply bind_inv_Return in H as (listing & lg2 & _ & H).
  destruct (has_markers listing); simpl in H.
  - apply bind_inv_Return in H as (? & lg3 & _ & H).
    apply bind_inv_Return in H as (mf & lg4 & _ & H).
    apply bind_inv_Return in H as (label & lg5 & _ & H).
    apply bind_inv_Return in H as (mapping_attr & lg6 & _ & H).
    apply bind_inv_Return in H as (? & lg7 & _ & H).
    unfold load_service_guarded, try_except in H.
    destruct (load_service _ _ _ _ _ _ _ _ _) as [lg8 [r1|e]] eqn:Hload.
    + injection H as _ <-. right.
      apply load_service_routes in Hload as (rules & -> & Hall).
      eexists. split; [done|]. split; simpl; [by exists rules|].
      apply Forall_fmap. by apply (Forall_impl _ _ _ Hall).
    + destruct (is_Import_or_Attribute e || is_Exception e)%bool; [|discriminate].
      destruct (is_Import_or_Attribute e).
      * unfold bind, log_exception, modify, raise in H. simpl in H. discriminate.
      * unfold bind, log_exception, log_call, modify, ret in H. simpl in H.
        injection H as _ <-. by left.
  - apply bind_inv_Return in H as (? & lg3 & _ & H).
    unfold ret in H. injection H as _ <-. by left.
Qed.

Lemma for_each_discover_routes w self home names :
  forall acc lg lg' r,
    for_each (discover_one w self home) names acc lg = (lg', Return r) ->
    exists added, r = acc ++ added /\ Forall (routes_namespaced w self) added.
Proof.
  induction names as [|n names IH]; intros acc lg lg' r H.
  - simpl in H. unfold ret in H. injection H as _ <-.
    exists []. by rewrite app_nil_r.
  - simpl in H. apply bind_inv_Return in H as (acc1 & lg1 & Hone & H).
    apply IH in H as (added & -> & Hall).
    apply discover_one_routes in Hone as [->|(d & -> & Hd)].
    + by exists added.
    + exists (d :: added). rewrite <- app_assoc. split; [done|]. by constructor.
Qed.

(** X7: when discovery returns, the route table of every descriptor is
    a list of local route tuples put under the name space of the service
    (each pattern is [effective_url] of the application URL base, the
    service name and a local pattern, the rest of the tuple is
    untouched), and every pattern of the table compiles. *)
Theorem discovered_routes_are_namespaced_and_valid
    (w : world) (self : AppServer) (home_arg : option string)
    (lg lg' : logger) (services : list ServiceDescriptor) :
  _discover_services w self home_arg lg = (lg', Return services) ->
  Forall (fun d =>
    (exists rules,
       sd_handlers d = map (namespace_rule (_app_url_base self) (sd_name d)) rules)
    /\ Forall (fun r => re_compile w (rule_pattern r) = None) (sd_handlers d)) services.
Proof.
  intros H.
  destruct (os_listdir w (resolve_home self home_arg)) as [entries|e] eqn:Hl.
  2:{ unfold _discover_services, bind, lift, log_call, modify in H.
      rewrite Hl in H. simpl in H. discriminate. }
  rewrite (discover_services_unfold _ _ _ _ _ Hl) in H.
  apply for_each_discover_routes in H as (added & -> & Hall). exact Hall.
Qed.

Lemma discovered_routes_are_namespaced_and_valid_witness :
  Forall (fun d =>
    (exists rules,
       sd_handlers d
       = map (namespace_rule (_app_url_base example_server) (sd_name d)) rules)
    /\ Forall (fun r => re_compile plain_world (rule_pattern r) = None) (sd_handlers d))
    (returned (snd (_discover_services plain_world example_server None [])) []).
Proof.
  apply (discovered_routes_are_namespaced_and_valid plain_world example_server None []
           (fst (_discover_services plain_world example_server None []))).
  vm_compute. reflexivity.
Defined.

Lemma discover_one_well_formed w self home n d services lg :
  well_formed_service w self home n d ->
  exists lg', discover_one w self home n services lg = (lg', Return (services ++ [d])).
Proof.
  intros (mf & mapping_attr & rules & Hc & Hlabel & Hmap & Hload & Hall & Hname & Hroutes).
  destruct Hload as (module & Himp & Hinit & Hattr).
  rewrite (discover_one_load _ _ _ _ _ _ _ _ _ Hc Hlabel Hmap).
  unfold load_service_guarded, try_except, load_service.
  unfold bind at 1, lift at 1. rewrite Himp.
  unfold bind at 1.
  destruct (Hinit (lg ++ [analysing home n; valid_location; loading n])) as [lg2 ->].
  unfold bind at 1, lift at 1, getattr. rewrite Hattr.
  unfold bind at 1, lift at 1, iter_rules.
  unfold bind at 1. rewrite (expand_rules_ok _ _ _ _ Hall).
  unfold bind, log_call, modify, ret. simpl.
  eexists. do 3 f_equal. destruct d as [dn dl dh]. simpl in *. by subst.
Qed.

Lemma for_each_discovers w self home names ds :
  discovers w self home names ds ->
  forall acc lg, exists lg',
    for_each (discover_one w self home) names acc lg = (lg', Return (acc ++ ds)).
Proof.
  induction 1 as [|n names ds listing Hl Hm _ IH|n names d ds Hwf _ IH]; intros acc lg.
  - exists lg. simpl. unfold ret. by rewrite app_nil_r.
  - simpl. unfold bind at 1.
    rewrite (discover_one_discarded _ _ _ _ _ _ _ Hl Hm). apply IH.
  - simpl. unfold bind at 1.
    destruct (discover_one_well_formed w self home n d acc lg Hwf) as [lg1 ->].
    destruct (IH (acc ++ [d]) lg1) as [lg' ->].
    exists lg'. by rewrite <- app_assoc.
Qed.

(** X8: discovery returns, in the sorted order of the directory names,
    the descriptor of every sub-directory that is well formed (marker
    files, label, importable and initialised module, route table that
    compiles), with the label of the manifest and the namespaced routes,
    provided every other sub-directory lacks a marker file; those are
    passed over. *)
Theorem discovery_returns_every_well_formed_service
    (w : world) (self : AppServer) (home_arg : option string)
    (entries : list string) (ds : list ServiceDescriptor) (lg : logger) :
  os_listdir w (resolve_home self home_arg) = Return entries ->
  discovers w self (resolve_home self home_arg)
    (service_dirs w (resolve_home self home_arg) entries) ds ->
  exists lg', _discover_services w self home_arg lg = (lg', Return ds).
Proof.
  intros Hl Hd. rewrite (discover_services_unfold _ _ _ _ _ Hl).
  by apply (for_each_discovers _ _ _ _ _ Hd []).
Qed.

Lemma discovery_returns_every_well_formed_service_witness :
  exists lg',
    _discover_services plain_world example_server None []
    = (lg', Return [mkServiceDescriptor "_diags" "Diagnostics"
                      (map (namespace_rule "/api/" "_diags") diags_rules);
                    mkServiceDescriptor "hello" "Hello"
                      (map (namespace_rule "/api/" "hello") hello_rules)]).
Proof.
  apply (discovery_returns_every_well_formed_service plain_world example_server None
           ["hello"; "docs"; "_diags"; "README.txt"]).
  - reflexivity.
  - change (service_dirs plain_world (resolve_home example_server None)
              ["hello"; "docs"; "_diags"; "README.txt"])
      with ["_diags"; "docs"; "hello"].
    apply discovers_cons.
    { exists (manifest_with_label "Diagnostics"), "handlers", diags_rules.
      split; [exists package_files; repeat split; reflexivity|].
      split; [reflexivity|]. split; [reflexivity|].
      split; [eexists; split; [reflexivity|]; split; [|reflexivity];
              intros l; eexists; reflexivity|].
      split; [repeat constructor|]. split; reflexivity. }
    apply discovers_skip with ["README"]; [reflexivity|reflexivity|].
    apply discovers_cons; [|apply discovers_nil].
    exists (manifest_with_label "Hello"), "handlers", hello_rules.
    split; [exists package_files; repeat split; reflexivity|].
    split; [reflexivity|]. split; [reflexivity|].
    split; [eexists; split; [reflexivity|]; split; [|reflexivity];
            intros l; eexists; reflexivity|].
    split; [repeat constructor|]. split; reflexivity.
Defined.

(** A home without any sub-directory gives no service. *)
Example discovery_of_empty_home :
  snd (_discover_services empty_world example_server None []) = Return [].
Proof. vm_compute. reflexivity. Qed.

Lemma app_sep_inj (n1 n2 x y : string) :
  contains_char SEP n1 = false ->
  contains_char SEP n2 = false ->
  n1 +:+ "/" +:+ x = n2 +:+ "/" +:+ y ->
  n1 = n2.
Proof.
  revert n2. induction n1 as [|a n1 IH]; intros [|b n2] H1 H2 Heq.
  - done.
  - change (String SEP x = String b (n2 +:+ "/" +:+ y)) in Heq.
    injection Heq as Hb _. subst b.
    change (true || contains_char SEP n2 = false)%bool in H2. discriminate.
  - change (String a (n1 +:+ "/" +:+ x) = String SEP y) in Heq.
    injection Heq as Ha _. subst a.
    change (true || contains_char SEP n1 = false)%bool in H1. discriminate.
  - change (String a (n1 +:+ "/" +:+ x) = String b (n2 +:+ "/" +:+ y)) in Heq.
    injection Heq as -> Heq.
    change ((Ascii.eqb b SEP || contains_char SEP n1)%bool = false) in H1.
    change ((Ascii.eqb b SEP || contains_char SEP n2)%bool = false) in H2.
    apply orb_false_iff in H1 as [_ H1]. apply orb_false_iff in H2 as [_ H2].
    f_equal. by apply IH.
Qed.

(** X9: the name space keeps services apart. For two different service
    names, neither of which contains a separator (they are directory
    names), no route of the one has the effective URL of a route of the
    other, whatever the local patterns. *)
Theorem namespaces_do_not_clash (app_url_base n1 n2 p1 p2 : string) :
  contains_char SEP n1 = false ->
  contains_char SEP n2 = false ->
  n1 <> n2 ->
  effective_url app_url_base n1 p1 <> effective_url app_url_base n2 p2.
Proof.
  intros H1 H2 Hne Heq. apply Hne.
  unfold effective_url, url_base in Heq.
  rewrite !string_app_assoc in Heq.
  apply String.app_inj in Heq.
  change ("/" +:+ n1 +:+ "/" +:+ lstrip SEP p1)
    with (String SEP (n1 +:+ "/" +:+ lstrip SEP p1)) in Heq.
  change ("/" +:+ n2 +:+ "/" +:+ lstrip SEP p2)
    with (String SEP (n2 +:+ "/" +:+ lstrip SEP p2)) in Heq.
  injection Heq as Heq. by eapply app_sep_inj.
Qed.

Lemma namespaces_do_not_clash_witness :
  effective_url "/api/" "hello" "/say" <> effective_url "/api/" "_diags" "/say".
Proof.
  apply (namespaces_do_not_clash "/api/" "hello" "_diags" "/say" "/say").
  - reflexivity.
  - reflexivity.
  - discriminate.
Defined.



(** An [_init_] that trips over a missing attribute stops the whole
    discovery, although the services before it were fine. *)
Example init_attribute_error_aborts_discovery :
  snd (_discover_services
         (world_of example_home
            [good_plugin "alpha" "Alpha" diags_rules;
             failing_init_plugin "notif"
               (simple_exn AttributeError "'NoneType' object has no attribute 'connect'")] [])
         example_server None [])
  = Raise (simple_exn AttributeError "'NoneType' object has no attribute 'connect'").
Proof. vm_compute. reflexivity. Qed.

(** ** The services property *)

(** X13: the first reading of the [services] property runs discovery,
    keeps the list on the instance and warns when it is empty; every
    later reading returns that same list and changes nothing, whatever
    the file system has become in the meantime. The route tables of the
    store are not touched. *)
Theorem services_are_discovered_once
    (w : world) (self : loc) (p : process) (s : AppServer)
    (lg' : logger) (services : list ServiceDescriptor) :
  p_servers p !! self = Some s ->
  _services s = None ->
  _discover_services w s None (p_log p) = (lg', Return services) ->
  exists p1,
    _get_services w self p = (p1, Return services)
    /\ p_log p1
       = lg' ++ (if Nat.eqb (length services) 0
                 then [mkLog WARNING "No service found" [] false] else [])
    /\ p_lists p1 = p_lists p
    /\ forall w', _get_services w' self p1 = (p1, Return services).
Proof.
  intros Hs Hnone Hdisc.
  assert (server_at p self = s) as Hat by (unfold server_at; by rewrite Hs).
  unfold _get_services at 1. unfold bind at 1, get_server at 1.
  rewrite Hat, Hnone. unfold bind at 1, with_log at 1. rewrite Hdisc.
  unfold bind at 1, update_server, modify. unfold bind at 1.
  set (p0 := mkProcess (p_lists p)
               (alter (set_services (Some services)) self (p_servers p)) lg'
               (_muted_requests p)).
  assert (forall q, p_lists q = p_lists p ->
            p_servers q = p_servers p0 ->
            forall w', _get_services w' self q = (q, Return services)) as Hcached.
  { intros q _ Hq w'. unfold _get_services, bind, get_server, server_at.
    rewrite Hq. simpl. rewrite lookup_alter_eq, Hs. reflexivity. }
  destruct (Nat.eqb (length services) 0).
  - eexists. split; [reflexivity|]. simpl. repeat split. by apply Hcached.
  - eexists. split; [reflexivity|]. simpl. rewrite app_nil_r. repeat split.
    by apply Hcached.
Qed.

Lemma services_are_discovered_once_witness :
  exists p1,
    _get_services plain_world example_self (process_with example_server)
    = (p1, Return (returned (snd (_discover_services plain_world example_server None [])) []))
    /\ p_log p1
       = fst (_discover_services plain_world example_server None [])
         ++ (if Nat.eqb
                  (length (returned
                             (snd (_discover_services plain_world example_server None []))
                             [])) 0
             then [mkLog WARNING "No service found" [] false] else [])
    /\ p_lists p1 = p_lists (process_with example_server)
    /\ forall w',
         _get_services w' example_self p1
         = (p1, Return (returned
                          (snd (_discover_services plain_world example_server None [])) [])).
Proof.
  apply (services_are_discovered_once plain_world example_self
           (process_with example_server) example_server).
  - reflexivity.
  - reflexivity.
  - vm_compute. reflexivity.
Defined.

Lemma get_services_raises
    (w : world) (self : loc) (p : process) (s : AppServer) (lg' : logger) (e : exn) :
  p_servers p !! self = Some s ->
  _services s = None ->
  _discover_services w s None (p_log p) = (lg', Raise e) ->
  _get_services w self p
  = (mkProcess (p_lists p) (p_servers p) lg' (_muted_requests p), Raise e).
Proof.
  intros Hs Hnone Hdisc.
  assert (server_at p self = s) as Hat0 by (unfold server_at; by rewrite Hs).
  unfold _get_services, bind, get_server. rewrite Hat0, Hnone.
  unfold with_log. by rewrite Hdisc.
Qed.

(** X14: a discovery that raises leaves nothing on the instance: the
    exception goes out of the [services] property, only the log has
    changed, and the next reading runs discovery again. *)
Theorem failed_discovery_is_not_cached
    (w : world) (self : loc) (p : process) (s : AppServer) (lg' : logger) (e : exn) :
  p_servers p !! self = Some s ->
  _services s = None ->
  _discover_services w s None (p_log p) = (lg', Raise e) ->
  _get_services w self p
  = (mkProcess (p_lists p) (p_servers p) lg' (_muted_requests p), Raise e)
  /\ forall w' lg'' services,
       _discover_services w' s None lg' = (lg'', Return services) ->
       snd (_get_services w' self
              (mkProcess (p_lists p) (p_servers p) lg' (_muted_requests p)))
       = Return services.
Proof.
  intros Hs Hnone Hdisc.
  assert (forall lg0, server_at (mkProcess (p_lists p) (p_servers p) lg0 (_muted_requests p))
                        self = s) as Hat
    by (intros; unfold server_at; simpl; by rewrite Hs).
  split.
  - by apply get_services_raises with s.
  - intros w' lg'' services Hdisc'.
    unfold _get_services, bind, get_server. rewrite Hat, Hnone.
    unfold with_log. simpl. rewrite Hdisc'. simpl.
    unfold update_server, modify. simpl.
    destruct (Nat.eqb (length services) 0); reflexivity.
Qed.

Lemma failed_discovery_is_not_cached_witness :
  _get_services missing_label_world example_self (process_with example_server)
  = (mkProcess (p_lists (process_with example_server))
       (p_servers (process_with example_server))
       (fst (_discover_services missing_label_world example_server None []))
       (_muted_requests (process_with example_server)),
     Raise (no_option_error "label" MANIFEST_MAIN_SECTION))
  /\ forall w' lg'' services,
       _discover_services w' example_server None
         (fst (_discover_services missing_label_world example_server None []))
       = (lg'', Return services) ->
       snd (_get_services w' example_self
              (mkProcess (p_lists (process_with example_server))
                 (p_servers (process_with example_server))
                 (fst (_discover_services missing_label_world example_server None []))
                 (_muted_requests (process_with example_server))))
       = Return services.
Proof.
  apply (failed_discovery_is_not_cached missing_label_world example_self
           (process_with example_server) example_server).
  - reflexivity.
  - reflexivity.
  - vm_compute. reflexivity.
Defined.

(** ** Server start *)

(** [start] is its set-up followed by the loop and its epilogue. *)
Lemma start_split (w : world) (loop : M process unit) (self : loc) (p : process) :
  start w loop self p = (start_setup w self ;;; start_loop loop self) p.
Proof.
  unfold start, start_setup, start_loop, bind.
  destruct (get_server self p) as [p0 [s|e]]; [|reflexivity].
  destruct (_ioloop s); [reflexivity|].
  repeat (match goal with
          | |- context [match ?c with (_, _) => _ end] =>
              destruct c as [? [?|?]]; try reflexivity
          end).
Qed.

(** When the set-up of [start] returns, the instance refers to the
    loop. *)
Lemma start_setup_sets_ioloop (w : world) (self : loc) (p q : process) :
  start_setup w self p = (q, Return tt) ->
  is_Some (p_servers q !! self) ->
  _ioloop (server_at q self) = Some IOLOOP.
Proof.
  unfold start_setup. intros H Hin.
  apply bind_inv_Return in H as (s & p0 & _ & H).
  destruct (_ioloop s); [discriminate|].
  do 9 (apply bind_inv_Return in H as (? & ? & _ & H)).
  apply bind_inv_Return in H as (? & q0 & Hupd & H).
  unfold update_server, modify in Hupd. injection Hupd as <-.
  unfold p_info, with_log in H. simpl in H. injection H as <-.
  unfold server_at in *. simpl in *. rewrite lookup_alter_eq in *.
  destruct (p_servers _ !! self); [done|]. by destruct Hin.
Qed.

(** X15: an interactive interrupt of the loop ends [start] without an
    error: once the set-up has returned, a [KeyboardInterrupt] raised by
    the loop is absorbed, "SIGINT received." and "terminated" are logged,
    the loop reference of the instance is unset and [start] returns. *)
Theorem interrupt_ends_start_cleanly
    (w : world) (loop : M process unit) (self : loc) (p q q' : process) (e : exn) :
  start_setup w self p = (q, Return tt) ->
  loop q = (q', Raise e) ->
  exn_class_of e = KeyboardInterrupt ->
  start w loop self p
  = (mkProcess (p_lists q') (alter (set_ioloop None) self (p_servers q'))
       (p_log q' ++ [mkLog INFO "SIGINT received." [] false;
                     mkLog INFO "terminated" [] false])
       (_muted_requests q'),
     Return tt).
Proof.
  intros Hsetup Hloop Hcls. rewrite start_split. unfold bind at 1. rewrite Hsetup.
  unfold start_loop, bind, try_except. rewrite Hloop, Hcls.
  unfold p_info, with_log, log_call, update_server, modify. simpl.
  by rewrite <- app_assoc.
Qed.

Lemma interrupt_ends_start_cleanly_witness :
  start plain_world interrupted_loop example_self (process_with example_server)
  = (mkProcess
       (p_lists (fst (start_setup plain_world example_self (process_with example_server))))
       (alter (set_ioloop None) example_self
          (p_servers (fst (start_setup plain_world example_self
                             (process_with example_server)))))
       (p_log (fst (start_setup plain_world example_self (process_with example_server)))
        ++ [mkLog INFO "SIGINT received." [] false; mkLog INFO "terminated" [] false])
       (_muted_requests
          (fst (start_setup plain_world example_self (process_with example_server)))),
     Return tt).
Proof.
  apply (interrupt_ends_start_cleanly plain_world interrupted_loop example_self
           (process_with example_server)
           (fst (start_setup plain_world example_self (process_with example_server)))
           (fst (start_setup plain_world example_self (process_with example_server)))
           (simple_exn KeyboardInterrupt "")).
  - vm_compute. reflexivity.
  - reflexivity.
  - reflexivity.
Defined.

(** X16: any other exception that escapes from the loop goes out of
    [start], which then does not unset the loop reference: if the loop
    left the instance alone, the instance stays marked as started and
    every later [start] on it is refused with the already-started
    error. *)
Theorem loop_failure_leaves_instance_started
    (w : world) (loop : M process unit) (self : loc) (p q q' : process) (e : exn) :
  start_setup w self p = (q, Return tt) ->
  loop q = (q', Raise e) ->
  exn_class_of e <> KeyboardInterrupt ->
  is_Some (p_servers q !! self) ->
  p_servers q' !! self = p_servers q !! self ->
  start w loop self p = (q', Raise e)
  /\ forall w' loop', start w' loop' self q' = (q', Raise already_started).
Proof.
  intros Hsetup Hloop Hcls Hin Hsame. split.
  - rewrite start_split. unfold bind at 1. rewrite Hsetup.
    unfold start_loop, bind, try_except. rewrite Hloop.
    destruct (exn_class_of e); try reflexivity. done.
  - intros w' loop'. apply start_refused with IOLOOP.
    pose proof (start_setup_sets_ioloop w self p q Hsetup Hin) as Hio.
    unfold server_at in *. by rewrite Hsame.
Qed.

Lemma loop_failure_leaves_instance_started_witness :
  start plain_world crashing_loop example_self (process_with example_server)
  = (fst (start_setup plain_world example_self (process_with example_server)),
     Raise (simple_exn (UserError "IOError") "event loop failure"))
  /\ forall w' loop',
       start w' loop' example_self
         (fst (start_setup plain_world example_self (process_with example_server)))
       = (fst (start_setup plain_world example_self (process_with example_server)),
          Raise already_started).
Proof.
  apply (loop_failure_leaves_instance_started plain_world crashing_loop example_self
           (process_with example_server)
           (fst (start_setup plain_world example_self (process_with example_server)))
           (fst (start_setup plain_world example_self (process_with example_server)))
           (simple_exn (UserError "IOError") "event loop failure")).
  - vm_compute. reflexivity.
  - reflexivity.
  - discriminate.
  - vm_compute. eauto.
  - reflexivity.
Defined.

(** X17: when discovery raises during [start], the exception goes out
    before anything is assembled: the route tables and the instance are
    as they were, only the log has grown. *)
Theorem discovery_failure_aborts_start_untouched
    (w : world) (loop : M process unit) (self : loc) (p : process) (s : AppServer)
    (lg' : logger) (e : exn) :
  p_servers p !! self = Some s ->
  _ioloop s = None ->
  _services s = None ->
  _discover_services w s None (p_log p ++ [mkLog INFO "server initializing" [] false])
    = (lg', Raise e) ->
  start w loop self p
  = (mkProcess (p_lists p) (p_servers p) lg' (_muted_requests p), Raise e).
Proof.
  intros Hs Hio Hnone Hdisc.
  assert (server_at p self = s) as Hat by (unfold server_at; by rewrite Hs).
  unfold start. unfold bind at 1, get_server at 1. rewrite Hat, Hio.
  unfold bind at 1, p_info at 1, with_log at 1, log_call at 1, modify at 1. simpl.
  unfold bind at 1.
  by rewrite (get_services_raises w self
                (mkProcess (p_lists p) (p_servers p)
                   (p_log p ++ [mkLog INFO "server initializing" [] false])
                   (_muted_requests p)) s lg' e Hs Hnone Hdisc).
Qed.

Lemma discovery_failure_aborts_start_untouched_witness :
  start missing_label_world (ret tt) example_self (process_with example_server)
  = (mkProcess (p_lists (process_with example_server))
       (p_servers (process_with example_server))
       (fst (_discover_services missing_label_world example_server None
               (p_log (process_with example_server)
                ++ [mkLog INFO "server initializing" [] false])))
       (_muted_requests (process_with example_server)),
     Raise (no_option_error "label" MANIFEST_MAIN_SECTION)).
Proof.
  apply (discovery_failure_aborts_start_untouched missing_label_world (ret tt)
           example_self (process_with example_server) example_server).
  - reflexivity.
  - reflexivity.
  - reflexivity.
  - vm_compute. reflexivity.
Defined.




(** Two attempts to start on a busy port: the fallback rule is in the
    table twice. *)
Example busy_port_twice :
  default []
    (p_lists
       (fst (start (port_in_use plain_world) (ret tt) example_self
               (fst (start (port_in_use plain_world) (ret tt) example_self
                       (process_with example_server)))))
     !! toplevel_handlers)
  = [mkRule "/api/_diags/hello" [IClass "HelloHandler"; IDict ∅];
     mkRule "/api/_diags/routes" [IClass "RoutesHandler"; IDict ∅];
     mkRule "/api/hello/say" [IClass "SayHelloHandler"; IDict ∅];
     mkRule "/.*" [IClass "InvalidRequest"];
     mkRule "/api/_diags/hello" [IClass "HelloHandler"; IDict ∅];
     mkRule "/api/_diags/routes" [IClass "RoutesHandler"; IDict ∅];
     mkRule "/api/hello/say" [IClass "SayHelloHandler"; IDict ∅];
     mkRule "/.*" [IClass "InvalidRequest"]].
Proof. vm_compute. reflexivity. Qed.

(** ** Request logging *)

(** X19: the mute list only grows and never holds a URI twice: after
    any sequence of completed requests it is the list it was, followed
    by new URIs, without duplicates if it had none; the route tables and
    the instances are not touched and no request makes the logging
    fail. *)
Theorem mute_list_grows_without_duplicates (cs : list completed) (p : process) :
  NoDup (_muted_requests p) ->
  exists p' added,
    run_requests cs p = (p', Return tt)
    /\ _muted_requests p' = _muted_requests p ++ added
    /\ NoDup (_muted_requests p')
    /\ p_lists p' = p_lists p
    /\ p_servers p' = p_servers p.
Proof.
  revert p. induction cs as [|c cs IH]; intros p Hnd.
  - exists p, []. rewrite app_nil_r. done.
  - unfold run_requests. simpl. unfold bind at 1. rewrite log_request_step.
    match goal with |- context [for_each _ cs tt ?q] => set (p1 := q) end.
    assert (exists a, _muted_requests p1 = _muted_requests p ++ a
                      /\ NoDup (_muted_requests p1)) as (a & Ha & Hnd1).
    { subst p1. simpl.
      destruct (c_status c <? 400); simpl; [|exists []; by rewrite app_nil_r].
      destruct (bool_decide_reflect (c_uri c ∈ _muted_requests p)) as [Hin|Hnin];
        simpl; [exists []; by rewrite app_nil_r|].
      destruct (default false (c_disable_request_logging c));
        [|exists []; by rewrite app_nil_r].
      exists [c_uri c]. split; [done|].
      apply NoDup_app. split; [done|]. split.
      - intros x Hx Hx'. apply list_elem_of_singleton in Hx'. by subst.
      - apply NoDup_singleton. }
    destruct (IH p1 Hnd1) as (p' & added & Hrun & Hm & Hnd' & Hl & Hsv).
    exists p', (a ++ added). split; [exact Hrun|].
    split; [by rewrite Hm, Ha, <- app_assoc|].
    split; [done|]. by rewrite Hl, Hsv.
Qed.

Lemma mute_list_grows_without_duplicates_witness :
  exists p' added,
    run_requests
      [mkCompleted 200 "/api/notif/check" (Some true) "GET /api/notif/check" 12;
       mkCompleted 200 "/api/notif/check" (Some true) "GET /api/notif/check" 9]
      fresh_process = (p', Return tt)
    /\ _muted_requests p' = _muted_requests fresh_process ++ added
    /\ NoDup (_muted_requests p')
    /\ p_lists p' = p_lists fresh_process
    /\ p_servers p' = p_servers fresh_process.
Proof.
  apply (mute_list_grows_without_duplicates
           [mkCompleted 200 "/api/notif/check" (Some true) "GET /api/notif/check" 12;
            mkCompleted 200 "/api/notif/check" (Some true) "GET /api/notif/check" 9]
           fresh_process).
  simpl. apply NoDup_nil_2.
Defined.

(** ** The launcher *)

Lemma launch_state_spec (home : string) (debug : bool) (server : loc) (p : process) :
  (AppServer_init server home debug ;;; list_extend toplevel_handlers []) p
  = (launch_state home debug server p, Return tt)
  /\ p_lists (launch_state home debug server p) = p_lists p
  /\ p_servers (launch_state home debug server p)
     = <[server := mkAppServer "/api/" 8888 debug None None home None]> (p_servers p)
  /\ p_log (launch_state home debug server p)
     = p_log p ++ (if debug
                   then [mkLog WARNING "AppServer instantiated with debug mode activated"
                           [] false]
                   else [])
  /\ _muted_requests (launch_state home debug server p) = _muted_requests p.
Proof.
  unfold launch_state, AppServer_init, list_extend, bind, modify, with_log, log_call, ret.
  assert (forall m : gmap loc (list rule),
            alter (fun old => old ++ []) toplevel_handlers m = m) as Hid.
  { intros m. apply alter_id. intros x _. apply app_nil_r. }
  destruct debug; simpl; rewrite Hid; repeat split. by rewrite app_nil_r.
Qed.

(** X20: the launcher creates the server (with the debug warning when
    asked for), leaves the route tables as they are and calls [start];
    its run ends with exit status 0 when [start] returns, and with exit
    status 2 when [start] raises a subclass of [Exception], after logging
    that exception and the critical line "aborting server start". An
    exception that is not a subclass of [Exception] goes through. *)
Theorem launcher_exit_status
    (w : world) (loop : M process unit) (home : string) (debug : bool) (server : loc)
    (p q : process) (o : outcome unit) :
  start w loop server (launch_state home debug server p) = (q, o) ->
  websvcd_main w loop home debug server p
  = match o with
    | Return _ => (q, Return 0)
    | Raise e =>
        if is_Exception e
        then (mkProcess (p_lists q) (p_servers q) (p_log q ++ abort_log e)
                (_muted_requests q), Return 2)
        else (q, Raise e)
    end
  /\ p_lists (launch_state home debug server p) = p_lists p
  /\ p_servers (launch_state home debug server p)
     = <[server := mkAppServer "/api/" 8888 debug None None home None]> (p_servers p)
  /\ p_log (launch_state home debug server p)
     = p_log p ++ (if debug
                   then [mkLog WARNING "AppServer instantiated with debug mode activated"
                           [] false]
                   else []).
Proof.
  intros Hstart.
  destruct (launch_state_spec home debug server p) as (Hls & Hlists & Hsrv & Hlog & _).
  split; [|done].
  assert (exists p0, AppServer_init server home debug p = (p0, Return tt)) as [p0 Hinit].
  { unfold AppServer_init, bind, modify. destruct debug; simpl; eauto. }
  assert (launch_state home debug server p
          = fst (list_extend toplevel_handlers [] p0)) as Hq.
  { unfold launch_state. unfold bind at 1. by rewrite Hinit. }
  unfold websvcd_main. unfold bind at 1. rewrite Hinit.
  unfold try_except. unfold bind at 1.
  unfold list_extend at 1, modify at 1.
  unfold list_extend, modify in Hq. simpl in Hq. rewrite <- Hq.
  unfold bind at 1. rewrite Hstart.
  destruct o as [[]|e]; [reflexivity|].
  destruct (is_Exception e); [|reflexivity].
  unfold bind, with_log, log_exception, log_call, modify, ret, abort_log. simpl.
  by rewrite <- app_assoc.
Qed.

Lemma launcher_exit_status_witness :
  websvcd_main missing_label_world (ret tt) example_home false example_self fresh_process
  = match snd (start missing_label_world (ret tt) example_self
                 (launch_state example_home false example_self fresh_process)) with
    | Return _ =>
        (fst (start missing_label_world (ret tt) example_self
                (launch_state example_home false example_self fresh_process)),
         Return 0)
    | Raise e =>
        if is_Exception e
        then (mkProcess
                (p_lists (fst (start missing_label_world (ret tt) example_self
                                 (launch_state example_home false example_self
                                    fresh_process))))
                (p_servers (fst (start missing_label_world (ret tt) example_self
                                   (launch_state example_home false example_self
                                      fresh_process))))
                (p_log (fst (start missing_label_world (ret tt) example_self
                               (launch_state example_home false example_self
                                  fresh_process)))
                 ++ abort_log e)
                (_muted_requests
                   (fst (start missing_label_world (ret tt) example_self
                           (launch_state example_home false example_self
                              fresh_process)))),
              Return 2)
        else (fst (start missing_label_world (ret tt) example_self
                     (launch_state example_home false example_self fresh_process)),
              Raise e)
    end
  /\ p_lists (launch_state example_home false example_self fresh_process)
     = p_lists fresh_process
  /\ p_servers (launch_state example_home false example_self fresh_process)
     = <[example_self := mkAppServer "/api/" 8888 false None None example_home None]>
         (p_servers fresh_process)
  /\ p_log (launch_state example_home false example_self fresh_process)
     = p_log fresh_process
       ++ (if false
           then [mkLog WARNING "AppServer instantiated with debug mode activated" [] false]
           else []).
Proof.
  apply (launcher_exit_status missing_label_world (ret tt) example_home false
           example_self fresh_process).
  apply surjective_pairing.
Defined.

(** The manifest without label of the example stops the launcher with
    status 2 after the two lines of the abort; a home served until an
    interrupt ends it with status 0. *)
Example launcher_on_examples :
  snd (websvcd_main missing_label_world (ret tt) example_home false example_self
         fresh_process) = Return 2
  /\ snd (websvcd_main plain_world interrupted_loop example_home true example_self
            fresh_process) = Return 0.
Proof. split; vm_compute; reflexivity. Qed.
